(** * lsp-mcp-server: a bridge from MCP tool calls to LSP requests

    Shallow embedding of the TypeScript sources

    - [src/index.ts]     tool handlers, range containment, tool dispatch
    - [src/lspClient.ts] the LSP client: handshake, open-file set, queries

    JavaScript strings are embedded as [string] (one [ascii] per code unit),
    line and character numbers coming from the language server as [Z], the
    [Set<string>] of opened documents as [gset string].  The primitives of
    the JavaScript host that the sources call but do not define (Number(),
    path.resolve, JSON.stringify, the message of library errors) are the
    fields of the class [JsRuntime]; a POSIX instance is given for closed
    examples.  The outside world (file system, language server) is an oracle
    consulted with the history of the effects performed so far; a tool call
    is a computation over the client state and that history which returns,
    throws, or is cut by the bound given to the one unbounded loop of the
    sources (the while loop of the file search). *)

From Stdlib Require Import ZArith Lia String Ascii List Bool.
From stdpp Require Import base option list gmap strings pretty.

Local Open Scope string_scope.
Local Open Scope Z_scope.

(** ** JavaScript string primitives used by the sources *)

Module Js.

(** [s.indexOf(pat, position)]: the position is clamped to [0, length s],
    the result is the first index at or after it where [pat] occurs, and
    -1 when there is none. *)
Definition indexOf (s pat : string) (position : Z) : Z :=
  let len := Z.of_nat (String.length s) in
  let start := Z.to_nat (Z.min (Z.max position 0) len) in
  match String.index start pat s with
  | Some i => Z.of_nat i
  | None => -1
  end.

(** [s.replace(pat, rep)] with a string pattern: only the first occurrence
    is replaced ([rep] holds no dollar sign in the sources). *)
Definition replace (s pat rep : string) : string :=
  match String.index 0 pat s with
  | Some i =>
      String.substring 0 i s ++ rep ++
      String.substring (i + String.length pat)
                       (String.length s - (i + String.length pat)) s
  | None => s
  end.

(** [s.split(sep)] for a one-character separator. *)
Fixpoint split (sep : ascii) (s : string) : list string :=
  match s with
  | EmptyString => [EmptyString]
  | String c s' =>
      if Ascii.eqb c sep then EmptyString :: split sep s'
      else match split sep s' with
           | piece :: pieces => String c piece :: pieces
           | [] => [String c EmptyString]
           end
  end.

(** White space of [trim] among the code units below 256. *)
Definition isWhiteSpace (c : ascii) : bool :=
  let n := nat_of_ascii c in
  ((9 <=? n)%nat && (n <=? 13)%nat) || (n =? 32)%nat || (n =? 160)%nat.

Fixpoint trimStart (s : string) : string :=
  match s with
  | EmptyString => EmptyString
  | String c s' => if isWhiteSpace c then trimStart s' else s
  end.

Fixpoint trimEnd (s : string) : string :=
  match s with
  | EmptyString => EmptyString
  | String c s' =>
      match trimEnd s' with
      | EmptyString => if isWhiteSpace c then EmptyString else String c EmptyString
      | t => String c t
      end
  end.

Definition trim (s : string) : string := trimEnd (trimStart s).

Definition startsWith (s pre : string) : bool := String.prefix pre s.

Definition endsWith (s suf : string) : bool :=
  let n := String.length s in
  let m := String.length suf in
  (m <=? n)%nat && String.eqb (String.substring (n - m) m s) suf.

(** [s.slice(k)] for a non-negative [k]. *)
Definition slice (s : string) (k : nat) : string :=
  String.substring k (String.length s - k) s.

(** The newline character. *)
Definition LF : ascii := ascii_of_nat 10.

End Js.

(** ** Data model (vscode-languageserver-protocol) *)

Record Position := mkPosition { line : Z; character : Z }.

Record Range := mkRange { start : Position; end_ : Position }.

Record Location := mkLocation { uri : string; range : Range }.

(** A node of a document outline.  The server answers with DocumentSymbol
    (range, selectionRange, children) or with SymbolInformation (location);
    the sources test the fields for presence, so each is optional here. *)
#[warnings="-register-all"]
Inductive Symbol := mkSymbol {
  name : string;
  sym_range : option Range;
  selectionRange : option Range;
  location : option Location;
  children : option (list Symbol)
}.

(** An entry of [matches] in handleSearchInFile. *)
Record Match := mkMatch { m_line : Z; m_character : Z; m_text : string }.

(** An issue of a ZodError: where it is, what was expected and received. *)
Inductive ZodIssue :=
| invalid_type (path : list string) (expected received : string)
| invalid_union (path : list string).

(** What the sources throw or let through: a ZodError of [parse], the
    McpError of an unknown tool, and the errors of the host (a rejected
    request or notification, a failed file read), known by their message. *)
Inductive Exn :=
| ZodError (issues : list ZodIssue)
| McpError (code : Z) (text : string)
| HostError (msg : string).

(** The answer to "textDocument/definition": Location | Location[] | null. *)
Inductive DefinitionResult :=
| DefNull
| DefOne (l : Location)
| DefMany (ls : list Location).

(** The answer to "initialize"; the sources only pass it on. *)
Record InitializeResult := mkInitializeResult { capabilities : string }.

(** The result of a tool call: one text item and the error flag. *)
Record ToolResult := mkToolResult { text : string; isError : bool }.

(** How a computation ends: it returns, it throws, or a loop of it was cut
    by the bound on its iterations. *)
Inductive Outcome (A : Type) :=
| Returned (a : A)
| Thrown (e : Exn)
| Unfinished.
Arguments Returned {A} a.
Arguments Thrown {A} e.
Arguments Unfinished {A}.

(** The JavaScript host. *)
Class JsRuntime := {
  (** the type of numbers *)
  JsNumber : Type;
  (** [Number(s)] on a string *)
  Number_of_string : string -> JsNumber;
  (** an integer as a number *)
  Number_of_Z : Z -> JsNumber;
  (** [Number.isNaN] *)
  isNaN : JsNumber -> bool;
  (** [process.cwd()], which the bridge never changes *)
  process_cwd : string;
  (** [path.resolve(...segments)] *)
  path_resolve : list string -> string;
  (** [JSON.stringify(v, null, 2)] on a list of locations or null *)
  JSON_stringify_locations : option (list Location) -> string;
  (** [JSON.stringify(v, null, 2)] on the matches of a search *)
  JSON_stringify_matches : list Match -> string;
  (** the [message] of a ZodError *)
  ZodError_message : list ZodIssue -> string;
  (** the [message] of an McpError built from a code and a text *)
  McpError_message : Z -> string -> string
}.

Section Bridge.

Context `{RT : JsRuntime}.

(** ** index.ts: configuration *)

Definition PROJECT_ROOT : string := process_cwd.

(** ** index.ts: isLocationInRange *)

Definition isLocationInRange (location : Location) (range0 : Range) (filePath : string) : bool :=
  let locPath := Js.replace (uri location) "file://" EmptyString in
  let targetPath := path_resolve [PROJECT_ROOT; filePath] in
  if negb (String.eqb (path_resolve [locPath]) targetPath) then false else
  let locLine := line (start (range location)) in
  let startLine := line (start range0) in
  let endLine := line (end_ range0) in
  if (locLine <? startLine) || (locLine >? endLine) then false else
  if (locLine =? startLine) &&
     (character (start (range location)) <? character (start range0)) then false else
  if (locLine =? endLine) &&
     (character (end_ (range location)) >? character (end_ range0)) then false else
  true.

(** ** index.ts: findSymbol (local to handleCheckFunctionCall) *)

(** The body of the loop for one symbol: the symbol itself when its name is
    the one looked for, otherwise the first hit among its children. *)
Fixpoint findSymbolAt (nm : string) (sym : Symbol) : option Symbol :=
  match sym with
  | mkSymbol n _ _ _ ch =>
      if String.eqb n nm then Some sym
      else match ch with
           | Some cs =>
               (fix loop (symbols : list Symbol) : option Symbol :=
                  match symbols with
                  | [] => None
                  | s :: rest =>
                      match findSymbolAt nm s with
                      | Some found => Some found
                      | None => loop rest
                      end
                  end) cs
           | None => None
           end
  end.

Fixpoint findSymbol (symbols : list Symbol) (nm : string) : option Symbol :=
  match symbols with
  | [] => None
  | sym :: rest =>
      match findSymbolAt nm sym with
      | Some found => Some found
      | None => findSymbol rest nm
      end
  end.

(** ** lspClient.ts: the connection and the outside world *)

(** The parameters of the messages the client sends.  The constant parts of
    the initialize parameters (process id, capabilities, the workspace folder
    named root at the same URI) are left out. *)
Inductive Params :=
| InitializeParams (rootUri : string)
| EmptyParams
| DidOpenParams (docUri languageId : string) (version : Z) (content : string)
| TextDocumentPositionParams (docUri : string) (ln ch : JsNumber)
| ReferenceParams (docUri : string) (ln ch : JsNumber) (includeDeclaration : bool)
| DocumentSymbolParams (docUri : string).

(** The effects of the bridge, in the order they happen. *)
Inductive Event :=
| EvRequest (method : string) (params : Params)
| EvNotification (method : string) (params : Params)
| EvNotificationFailed (method : string) (params : Params)
| EvReadFile (path : string)
| EvConsoleError (msg : string) (err : option Exn).

(** The outside world answers each effect from the history of the effects
    before it: the file system ([fs.readFile(path, 'utf-8')]) and the
    language server behind the connection, one oracle per request the client
    sends, typed as the client casts the answer.  [inl e] is a rejection. *)
Record World := mkWorld {
  fs_readFile : list Event -> string -> Exn + string;
  srv_initialize : list Event -> Params -> Exn + InitializeResult;
  srv_definition : list Event -> Params -> Exn + DefinitionResult;
  srv_references : list Event -> Params -> Exn + option (list Location);
  srv_hover : list Event -> Params -> Exn + option string;
  srv_documentSymbol : list Event -> Params -> Exn + option (list Symbol);
  srv_notification : list Event -> string -> Params -> option Exn
}.

(** The fields of the class LspClient (connection and process are the world). *)
Record LspClient := mkLspClient {
  rootPath : string;
  isInitialized : bool;
  openFiles : gset string
}.

Record State := mkState { client : LspClient; history : list Event }.

Definition M (A : Type) : Type := World -> State -> Outcome A * State.

Definition ret {A} (a : A) : M A := fun _ s => (Returned a, s).

Definition bind {A B} (m : M A) (k : A -> M B) : M B :=
  fun w s =>
    match m w s with
    | (Returned a, s') => k a w s'
    | (Thrown e, s') => (Thrown e, s')
    | (Unfinished, s') => (Unfinished, s')
    end.

Definition throw {A} (e : Exn) : M A := fun _ s => (Thrown e, s).

(** [try { m } catch (e) { handler e }] *)
Definition try_catch {A} (m : M A) (handler : Exn -> M A) : M A :=
  fun w s =>
    match m w s with
    | (Thrown e, s') => handler e w s'
    | r => r
    end.

Notation "x <- m ;; k" := (bind m (fun x => k))
  (at level 100, m at next level, right associativity).
Notation "m ;;; k" := (bind m (fun _ => k))
  (at level 100, right associativity).

Definition emit (ev : Event) : M unit :=
  fun _ s => (Returned tt, mkState (client s) (history s ++ [ev])).

Definition getClient : M LspClient := fun _ s => (Returned (client s), s).

Definition setClient (c : LspClient) : M unit :=
  fun _ s => (Returned tt, mkState c (history s)).

Definition console_error (msg : string) (err : option Exn) : M unit :=
  emit (EvConsoleError msg err).

(** [fs.readFile(path, 'utf-8')] *)
Definition readFile (path : string) : M string :=
  fun w s =>
    let s' := mkState (client s) (history s ++ [EvReadFile path]) in
    match fs_readFile w (history s) path with
    | inl e => (Thrown e, s')
    | inr content => (Returned content, s')
    end.

(** [connection.sendRequest(method, params)], with the oracle of the method *)
Definition sendRequest {A} (oracle : World -> list Event -> Params -> Exn + A)
    (method : string) (params : Params) : M A :=
  fun w s =>
    let s' := mkState (client s) (history s ++ [EvRequest method params]) in
    match oracle w (history s) params with
    | inl e => (Thrown e, s')
    | inr a => (Returned a, s')
    end.

(** [connection.sendNotification(method, params)] *)
Definition sendNotification (method : string) (params : Params) : M unit :=
  fun w s =>
    match srv_notification w (history s) method params with
    | Some e =>
        (Thrown e, mkState (client s) (history s ++ [EvNotificationFailed method params]))
    | None =>
        (Returned tt, mkState (client s) (history s ++ [EvNotification method params]))
    end.

(** The [message] property of what was caught. *)
Definition message (e : Exn) : string :=
  match e with
  | ZodError issues => ZodError_message issues
  | McpError code txt => McpError_message code txt
  | HostError msg => msg
  end.

(** ** lspClient.ts: class LspClient *)

(** The constructor: [this.rootPath = path.resolve(rootPath)]. *)
Definition newLspClient (root : string) : LspClient :=
  mkLspClient (path_resolve [root]) false ∅.

Definition initialize : M (option InitializeResult) :=
  c <- getClient ;;
  if isInitialized c then ret None
  else
    console_error "Initializing LSP connection..." None ;;;
    let params := InitializeParams ("file://" ++ rootPath c) in
    try_catch
      (console_error "Sending initialize request..." None ;;;
       result <- sendRequest srv_initialize "initialize" params ;;
       console_error "Initialize request successful." None ;;;
       sendNotification "initialized" EmptyParams ;;;
       c' <- getClient ;;
       setClient (mkLspClient (rootPath c') true (openFiles c')) ;;;
       ret (Some result))
      (fun e =>
         console_error ("Failed to initialize LSP: " ++ message e) None ;;;
         throw e).

Definition ensureInitialized : M unit :=
  c <- getClient ;;
  if negb (isInitialized c) then (initialize ;;; ret tt) else ret tt.

Definition getLanguageId (filePath : string) : string :=
  if Js.endsWith filePath ".ts" then "typescript"
  else if Js.endsWith filePath ".js" then "javascript"
  else if Js.endsWith filePath ".py" then "python"
  else "plaintext".

Definition didOpen (filePath : string) : M unit :=
  c <- getClient ;;
  let fullPath := path_resolve [rootPath c; filePath] in
  let docUri := "file://" ++ fullPath in
  if decide (docUri ∈ openFiles c) then ret tt
  else
    try_catch
      (content <- readFile fullPath ;;
       sendNotification "textDocument/didOpen"
         (DidOpenParams docUri (getLanguageId filePath) 1 content) ;;;
       c' <- getClient ;;
       setClient (mkLspClient (rootPath c') (isInitialized c') (openFiles c' ∪ {[docUri]})))
      (fun e => console_error ("Failed to open file: " ++ filePath) (Some e)).

Definition getDefinition (filePath : string) (ln ch : JsNumber) : M DefinitionResult :=
  ensureInitialized ;;;
  didOpen filePath ;;;
  c <- getClient ;;
  let docUri := "file://" ++ path_resolve [rootPath c; filePath] in
  sendRequest srv_definition "textDocument/definition"
    (TextDocumentPositionParams docUri ln ch).

Definition getReferences (filePath : string) (ln ch : JsNumber) : M (option (list Location)) :=
  ensureInitialized ;;;
  didOpen filePath ;;;
  c <- getClient ;;
  let docUri := "file://" ++ path_resolve [rootPath c; filePath] in
  sendRequest srv_references "textDocument/references"
    (ReferenceParams docUri ln ch true).

Definition getHover (filePath : string) (ln ch : JsNumber) : M (option string) :=
  ensureInitialized ;;;
  didOpen filePath ;;;
  c <- getClient ;;
  let docUri := "file://" ++ path_resolve [rootPath c; filePath] in
  sendRequest srv_hover "textDocument/hover"
    (TextDocumentPositionParams docUri ln ch).

Definition getDocumentSymbols (filePath : string) : M (option (list Symbol)) :=
  ensureInitialized ;;;
  didOpen filePath ;;;
  c <- getClient ;;
  let docUri := "file://" ++ path_resolve [rootPath c; filePath] in
  sendRequest srv_documentSymbol "textDocument/documentSymbol"
    (DocumentSymbolParams docUri).

(** ** index.ts: tool arguments and their zod schemas *)

(** The arguments of a tool call, as the host hands them over. *)
#[warnings="-register-all"]
Inductive JVal :=
| JUndefined
| JNull
| JBool (b : bool)
| JNum (n : JsNumber)
| JStr (s : string)
| JArr (items : list JVal)
| JObj (fields : list (string * JVal)).

(** [obj[key]] on the own properties of a plain object. *)
Fixpoint getProp (fields : list (string * JVal)) (key : string) : JVal :=
  match fields with
  | [] => JUndefined
  | (k, v) :: rest => if String.eqb k key then v else getProp rest key
  end.

(** The type zod reports as received. *)
Definition parsedType (v : JVal) : string :=
  match v with
  | JUndefined => "undefined"
  | JNull => "null"
  | JBool _ => "boolean"
  | JNum n => if isNaN n then "nan" else "number"
  | JStr _ => "string"
  | JArr _ => "array"
  | JObj _ => "object"
  end.

(** [z.string()] at a property *)
Definition z_string (path : list string) (v : JVal) : list ZodIssue + string :=
  match v with
  | JStr s => inr s
  | _ => inl [invalid_type path "string" (parsedType v)]
  end.

(** [z.union([z.string(), z.number()]).transform(val => Number(val))]: every
    string passes the union, and so does every number but NaN; the transform
    then turns the string into a number, whatever the string is. *)
Definition z_string_or_number_Number (path : list string) (v : JVal)
    : list ZodIssue + JsNumber :=
  match v with
  | JStr s => inr (Number_of_string s)
  | JNum n => if isNaN n then inl [invalid_union path] else inr n
  | _ => inl [invalid_union path]
  end.

Definition issues_of {A} (r : list ZodIssue + A) : list ZodIssue :=
  match r with
  | inl issues => issues
  | inr _ => []
  end.

(** The argsSchema of handleGetDefinition and of handleGetReferences (the
    two handlers build the same schema). *)
Definition argsSchema (args : JVal) : list ZodIssue + (string * JsNumber * JsNumber) :=
  match args with
  | JObj fields =>
      let f := z_string ["filePath"] (getProp fields "filePath") in
      let l := z_string_or_number_Number ["line"] (getProp fields "line") in
      let c := z_string_or_number_Number ["character"] (getProp fields "character") in
      match f, l, c with
      | inr filePath, inr ln, inr ch => inr (filePath, ln, ch)
      | _, _, _ => inl (issues_of f ++ issues_of l ++ issues_of c)%list
      end
  | _ => inl [invalid_type [] "object" (parsedType args)]
  end.

(** The schema of handleSearchInFile. *)
Definition searchSchema (args : JVal) : list ZodIssue + (string * string) :=
  match args with
  | JObj fields =>
      let f := z_string ["filePath"] (getProp fields "filePath") in
      let q := z_string ["query"] (getProp fields "query") in
      match f, q with
      | inr filePath, inr query => inr (filePath, query)
      | _, _ => inl (issues_of f ++ issues_of q)%list
      end
  | _ => inl [invalid_type [] "object" (parsedType args)]
  end.

(** The schema of handleCheckFunctionCall. *)
Definition checkSchema (args : JVal)
    : list ZodIssue + (string * string * string * string) :=
  match args with
  | JObj fields =>
      let sf := z_string ["sourceFile"] (getProp fields "sourceFile") in
      let sn := z_string ["sourceFunction"] (getProp fields "sourceFunction") in
      let tf := z_string ["targetFile"] (getProp fields "targetFile") in
      let tn := z_string ["targetFunction"] (getProp fields "targetFunction") in
      match sf, sn, tf, tn with
      | inr sourceFile, inr sourceFunction, inr targetFile, inr targetFunction =>
          inr (sourceFile, sourceFunction, targetFile, targetFunction)
      | _, _, _, _ => inl (issues_of sf ++ issues_of sn ++ issues_of tf ++ issues_of tn)%list
      end
  | _ => inl [invalid_type [] "object" (parsedType args)]
  end.

(** [schema.parse(args)]: the parsed value, or a ZodError thrown. *)
Definition parse {A} (schema : JVal -> list ZodIssue + A) (args : JVal) : M A :=
  match schema args with
  | inl issues => throw (ZodError issues)
  | inr a => ret a
  end.

(** ** index.ts: tool handlers *)

Definition lspClient : LspClient := newLspClient PROJECT_ROOT.

Definition initialState : State := mkState lspClient [].

Definition textResult (t : string) : ToolResult := mkToolResult t false.

Definition nl : string := String Js.LF EmptyString.

(** [items.join(sep)] *)
Fixpoint join (sep : string) (items : list string) : string :=
  match items with
  | [] => EmptyString
  | [x] => x
  | x :: rest => x ++ sep ++ join sep rest
  end.

Definition formatLocation (loc : Location) : string :=
  let u := if Js.startsWith (uri loc) "file://" then Js.slice (uri loc) 7 else uri loc in
  "File: " ++ u ++ nl ++ "Line: " ++ pretty (line (start (range loc))) ++
  ", Character: " ++ pretty (character (start (range loc))).

Definition handleGetDefinition (args : JVal) : M ToolResult :=
  a <- parse argsSchema args ;;
  let '(filePath, ln, ch) := a in
  result <- getDefinition filePath ln ch ;;
  match result with
  | DefNull => ret (textResult "No definition found.")
  | DefMany ls => ret (textResult (join (nl ++ nl) (map formatLocation ls)))
  | DefOne l => ret (textResult (formatLocation l))
  end.

Definition handleGetReferences (args : JVal) : M ToolResult :=
  a <- parse argsSchema args ;;
  let '(filePath, ln, ch) := a in
  result <- getReferences filePath ln ch ;;
  ret (textResult (JSON_stringify_locations result)).

(** The while loop of handleSearchInFile on one line; [fuel] bounds the
    number of its iterations, [None] says the bound was reached. *)
Fixpoint searchWhile (fuel : nat) (ln query : string) (i index : Z)
    (matches : list Match) : option (list Match) :=
  if index =? -1 then Some matches
  else
    match fuel with
    | O => None
    | S fuel' =>
        searchWhile fuel' ln query i (Js.indexOf ln query (index + 1))
          (matches ++ [mkMatch i index (Js.trim ln)])%list
    end.

(** The for loop over the lines, from line number [i] on. *)
Fixpoint searchFor (fuel : nat) (lines : list string) (query : string) (i : Z)
    (matches : list Match) : option (list Match) :=
  match lines with
  | [] => Some matches
  | ln :: rest =>
      match searchWhile fuel ln query i (Js.indexOf ln query 0) matches with
      | Some matches' => searchFor fuel rest query (i + 1) matches'
      | None => None
      end
  end.

Definition handleSearchInFile (fuel : nat) (args : JVal) : M ToolResult :=
  a <- parse searchSchema args ;;
  let '(filePath, query) := a in
  content <- readFile filePath ;;
  let lines := Js.split Js.LF content in
  match searchFor fuel lines query 0 [] with
  | None => fun _ s => (Unfinished, s)
  | Some matches =>
      ret (textResult
             ("Found " ++ pretty (Z.of_nat (length matches)) ++
              " matches (coordinates are 0-based, ready for use with get_definition/get_references):" ++
              nl ++ JSON_stringify_matches matches))
  end.

(** Step 3 of handleCheckFunctionCall, "handle both DocumentSymbol (with
    selectionRange) and SymbolInformation (with location)": the position the
    references are asked for, if the symbol has one. *)
Definition targetPositionOf (targetSym : Symbol) : option Position :=
  match selectionRange targetSym, location targetSym with
  | Some sel, _ => Some (start sel)
  | None, Some loc => Some (start (range loc))
  | None, None => None
  end.

(** Step 4: the range of the source symbol, if it has one. *)
Definition sourceRangeOf (sourceSym : Symbol) : option Range :=
  match sym_range sourceSym, location sourceSym with
  | Some r, _ => Some r
  | None, Some loc => Some (range loc)
  | None, None => None
  end.

Definition handleCheckFunctionCall (args : JVal) : M ToolResult :=
  a <- parse checkSchema args ;;
  let '(sourceFile, sourceFunction, targetFile, targetFunction) := a in
  (* 1. Find the range of the source function *)
  sourceSymbols <- getDocumentSymbols sourceFile ;;
  match sourceSymbols with
  | None => ret (textResult "Source file symbols not found")
  | Some sourceSymbols =>
  match findSymbol sourceSymbols sourceFunction with
  | None => ret (textResult ("Source function '" ++ sourceFunction ++
                             "' not found in " ++ sourceFile))
  | Some sourceSym =>
  (* 2. Find the definition location of the target function *)
  targetSymbols <- getDocumentSymbols targetFile ;;
  match targetSymbols with
  | None => ret (textResult "Target file symbols not found")
  | Some targetSymbols =>
  match findSymbol targetSymbols targetFunction with
  | None => ret (textResult ("Target function '" ++ targetFunction ++
                             "' not found in " ++ targetFile))
  | Some targetSym =>
  (* 3. Find references of the target function *)
  match targetPositionOf targetSym with
  | None => ret (textResult "Could not determine location of target symbol")
  | Some pos =>
  references <- getReferences targetFile (Number_of_Z (line pos))
                                         (Number_of_Z (character pos)) ;;
  match references with
  | None => ret (textResult "No references found for target function")
  | Some references =>
  (* 4. Check if any reference is inside the source function's range *)
  match sourceRangeOf sourceSym with
  | None => ret (textResult "Could not determine range of source symbol")
  | Some sourceRange =>
  let calls := List.filter (fun ref => isLocationInRange ref sourceRange sourceFile)
                           references in
  if (Z.of_nat (length calls) >? 0) then
    ret (textResult ("Yes, '" ++ sourceFunction ++ "' calls '" ++ targetFunction ++
                     "' " ++ pretty (Z.of_nat (length calls)) ++ " times." ++ nl ++
                     "Locations: " ++ JSON_stringify_locations (Some calls)))
  else
    ret (textResult ("No direct call found from '" ++ sourceFunction ++ "' to '" ++
                     targetFunction ++ "'."))
  end end end end end end end.

(** ** index.ts: the CallToolRequestSchema handler *)

(** ErrorCode.MethodNotFound of the MCP SDK. *)
Definition MethodNotFound : Z := -32601.

Definition callTool (fuel : nat) (toolName : string) (args : JVal) : M ToolResult :=
  try_catch
    (if String.eqb toolName "get_definition" then handleGetDefinition args
     else if String.eqb toolName "get_references" then handleGetReferences args
     else if String.eqb toolName "search_in_file" then handleSearchInFile fuel args
     else if String.eqb toolName "check_function_call" then handleCheckFunctionCall args
     else throw (McpError MethodNotFound ("Unknown tool: " ++ toolName)))
    (fun e => ret (mkToolResult ("Error: " ++ message e) true)).

End Bridge.

(** ** A POSIX host for closed examples *)

Module Posix.

(** [path.resolve]: the segments are taken from the right until one is
    absolute, the working directory last; then the path is normalised. *)
Fixpoint gather (segments : list string) (acc : string) : bool * string :=
  match segments with
  | [] => (false, acc)
  | p :: rest =>
      if String.eqb p EmptyString then gather rest acc
      else if Js.startsWith p "/" then (true, p ++ "/" ++ acc)
      else gather rest (p ++ "/" ++ acc)
  end.

(** One step of the normalisation, on the stack of the names kept so far
    (the last one first). *)
Definition step (absolute : bool) (stack : list string) (seg : string) : list string :=
  if String.eqb seg EmptyString || String.eqb seg "." then stack
  else if String.eqb seg ".." then
    match stack with
    | top :: below =>
        if String.eqb top ".." then seg :: stack else below
    | [] => if absolute then [] else [seg]
    end
  else seg :: stack.

Definition normalize (absolute : bool) (p : string) : string :=
  join "/" (rev (fold_left (step absolute) (Js.split "/"%char p) [])).

Definition resolve (cwd : string) (segments : list string) : string :=
  let '(absolute, p) := gather (rev segments ++ [cwd]) EmptyString in
  let n := normalize absolute p in
  if absolute then "/" ++ n
  else if String.eqb n EmptyString then "." else n.

(** Numbers: the integers and NaN. *)
Definition number : Type := option Z.

Definition isDigit (c : ascii) : bool :=
  let n := nat_of_ascii c in (48 <=? n)%nat && (n <=? 57)%nat.

Fixpoint digits (s : string) (acc : Z) : option Z :=
  match s with
  | EmptyString => Some acc
  | String c s' =>
      if isDigit c then digits s' (10 * acc + Z.of_nat (nat_of_ascii c - 48))
      else None
  end.

(** [Number(s)], exact on decimal integers and on the strings that denote
    no number; fractions, exponents, other radices and infinities are not
    represented in [number] and are kept out of the examples. *)
Definition Number (s : string) : number :=
  match Js.trim s with
  | EmptyString => Some 0
  | String "-" (String c r) => Z.opp <$> digits (String c r) 0
  | String "+" (String c r) => digits (String c r) 0
  | t => digits t 0
  end.

(** [JSON.stringify(v, null, 2)] *)
Definition hexDigit (n : nat) : ascii :=
  ascii_of_nat (if (n <? 10)%nat then 48 + n else 87 + n).

(** The double quote and the backslash. *)
Definition dq : string := String (ascii_of_nat 34) EmptyString.
Definition bs : string := String (ascii_of_nat 92) EmptyString.

Definition escapeChar (c : ascii) : string :=
  let n := nat_of_ascii c in
  if (n =? 34)%nat then bs ++ dq
  else if (n =? 92)%nat then bs ++ bs
  else if (n =? 8)%nat then bs ++ "b"
  else if (n =? 9)%nat then bs ++ "t"
  else if (n =? 10)%nat then bs ++ "n"
  else if (n =? 12)%nat then bs ++ "f"
  else if (n =? 13)%nat then bs ++ "r"
  else if (n <? 32)%nat then
    bs ++ "u00" ++
    String (hexDigit (n / 16)) (String (hexDigit (n mod 16)) EmptyString)
  else String c EmptyString.

Fixpoint escape (s : string) : string :=
  match s with
  | EmptyString => EmptyString
  | String c s' => escapeChar c ++ escape s'
  end.

Definition quote (s : string) : string := dq ++ escape s ++ dq.

Definition object (indent : string) (members : list (string * string)) : string :=
  "{" ++ nl ++
  join ("," ++ nl) (map (fun m => indent ++ "  " ++ quote (fst m) ++ ": " ++ snd m) members)
  ++ nl ++ indent ++ "}".

Definition array (indent : string) (items : list string) : string :=
  match items with
  | [] => "[]"
  | _ => "[" ++ nl ++ join ("," ++ nl) (map (fun i => indent ++ "  " ++ i) items)
         ++ nl ++ indent ++ "]"
  end.

Definition position (indent : string) (p : Position) : string :=
  object indent [("line", pretty (line p)); ("character", pretty (character p))].

Definition location (loc : Location) : string :=
  object "  "
    [("uri", quote (uri loc));
     ("range", object "    "
        [("start", position "      " (start (range loc)));
         ("end", position "      " (end_ (range loc)))])].

Definition locations (v : option (list Location)) : string :=
  match v with
  | None => "null"
  | Some ls => array EmptyString (map location ls)
  end.

Definition matches (ms : list Match) : string :=
  array EmptyString
    (map (fun m => object "  "
            [("line", pretty (m_line m));
             ("character", pretty (m_character m));
             ("text", quote (m_text m))]) ms).

(** The message of a ZodError lists its issues; only their paths are
    rendered here. *)
Definition issuePath (i : ZodIssue) : string :=
  match i with
  | invalid_type p _ _ => "invalid_type at " ++ join "." p
  | invalid_union p => "invalid_union at " ++ join "." p
  end.

Definition zodMessage (issues : list ZodIssue) : string :=
  join "; " (map issuePath issues).

Definition mcpMessage (code : Z) (txt : string) : string :=
  "MCP error " ++ pretty code ++ ": " ++ txt.

(** The host of a bridge started in the directory /proj. *)
#[export] Instance runtime : JsRuntime := {|
  JsNumber := number;
  Number_of_string := Number;
  Number_of_Z := Some;
  isNaN := fun n => match n with None => true | Some _ => false end;
  process_cwd := "/proj";
  path_resolve := resolve "/proj";
  JSON_stringify_locations := locations;
  JSON_stringify_matches := matches;
  ZodError_message := zodMessage;
  McpError_message := mcpMessage
|}.

End Posix.

(** ** The specification's reading of containment *)

Section Containment_spec.

Context `{RT : JsRuntime}.

(** Document order on positions: by line, then by character. *)
Definition position_le (p q : Position) : bool :=
  (line p <? line q) || ((line p =? line q) && (character p <=? character q)).

(** The location's document and the file of the range resolve to one path. *)
Definition samePath (locUri filePath : string) : Prop :=
  path_resolve [Js.replace locUri "file://" EmptyString] =
  path_resolve [PROJECT_ROOT; filePath].

(** Containment as the specification words it: the paths agree and the
    start of the location lies between the start and the end of the range. *)
Definition startWithin (loc : Location) (r : Range) : bool :=
  position_le (start r) (start (range loc)) && position_le (start (range loc)) (end_ r).



End Containment_spec.

(** ** The nodes of an outline *)

(** The nodes of a symbol tree in depth-first order, a node before its
    children. *)
Fixpoint nodes (sym : Symbol) : list Symbol :=
  match sym with
  | mkSymbol _ _ _ _ ch =>
      sym ::
      match ch with
      | Some cs =>
          (fix all (symbols : list Symbol) : list Symbol :=
             match symbols with
             | [] => []
             | s :: rest => (nodes s ++ all rest)%list
             end) cs
      | None => []
      end
  end.

Fixpoint outline (symbols : list Symbol) : list Symbol :=
  match symbols with
  | [] => []
  | sym :: rest => (nodes sym ++ outline rest)%list
  end.

Definition named (nm : string) (sym : Symbol) : bool := String.eqb (name sym) nm.

(** ** Runs of the client *)

Section Runs.

Context `{RT : JsRuntime}.

(** The four query operations of the client. *)
Inductive Query :=
| QDefinition (filePath : string) (ln ch : JsNumber)
| QReferences (filePath : string) (ln ch : JsNumber)
| QHover (filePath : string) (ln ch : JsNumber)
| QDocumentSymbols (filePath : string).

Definition queryFile (q : Query) : string :=
  match q with
  | QDefinition f _ _ | QReferences f _ _ | QHover f _ _ | QDocumentSymbols f => f
  end.

(** The request a query sends for the document [docUri]. *)
Definition queryRequest (q : Query) (docUri : string) : Event :=
  match q with
  | QDefinition _ l c =>
      EvRequest "textDocument/definition" (TextDocumentPositionParams docUri l c)
  | QReferences _ l c =>
      EvRequest "textDocument/references" (ReferenceParams docUri l c true)
  | QHover _ l c =>
      EvRequest "textDocument/hover" (TextDocumentPositionParams docUri l c)
  | QDocumentSymbols _ =>
      EvRequest "textDocument/documentSymbol" (DocumentSymbolParams docUri)
  end.

(** A query run for its effects, the answer dropped. *)
Definition runQuery (q : Query) : M unit :=
  match q with
  | QDefinition f l c => bind (getDefinition f l c) (fun _ => ret tt)
  | QReferences f l c => bind (getReferences f l c) (fun _ => ret tt)
  | QHover f l c => bind (getHover f l c) (fun _ => ret tt)
  | QDocumentSymbols f => bind (getDocumentSymbols f) (fun _ => ret tt)
  end.

(** The state a computation leaves, however it ends. *)
Definition after {A} (m : M A) (w : World) (s : State) : State := snd (m w s).

(** Queries issued one after the other. *)
Definition runQueries (w : World) (qs : list Query) (s : State) : State :=
  fold_left (fun s q => after (runQuery q) w s) qs s.

(** The document URI the client derives from a path. *)
Definition uriOf (c : LspClient) (filePath : string) : string :=
  "file://" ++ path_resolve [rootPath c; filePath].

(** An open-notification delivered for the document [docUri]. *)
Definition isDidOpenFor (docUri : string) (ev : Event) : bool :=
  match ev with
  | EvNotification method (DidOpenParams d _ _ _) =>
      String.eqb method "textDocument/didOpen" && String.eqb d docUri
  | _ => false
  end.

Definition countDidOpen (docUri : string) (h : list Event) : nat :=
  length (List.filter (isDidOpenFor docUri) h).

(** The log entry of [didOpen] for a file it could not open. *)
Definition failedToOpen (filePath : string) (e : Exn) : Event :=
  EvConsoleError ("Failed to open file: " ++ filePath) (Some e).

(** A request of the handshake. *)
Definition isInitializeRequest (ev : Event) : bool :=
  match ev with
  | EvRequest method _ => String.eqb method "initialize"
  | _ => false
  end.

(** What the world makes of a handshake begun in state [s]: the initialize
    request and then the initialized notification, each at the history it
    is sent in. *)
Definition handshakeHistory (s : State) : list Event :=
  history s ++ [EvConsoleError "Initializing LSP connection..." None;
                EvConsoleError "Sending initialize request..." None].

Definition handshakeParams (s : State) : Params :=
  InitializeParams ("file://" ++ rootPath (client s)).

(** The three effects every handshake starts with. *)
Definition handshakeStart (s : State) : list Event :=
  [EvConsoleError "Initializing LSP connection..." None;
   EvConsoleError "Sending initialize request..." None;
   EvRequest "initialize" (handshakeParams s)].

Definition handshake (w : World) (s : State) : Exn + InitializeResult :=
  match srv_initialize w (handshakeHistory s) (handshakeParams s) with
  | inl e => inl e
  | inr r =>
      match srv_notification w
              (handshakeHistory s ++
               [EvRequest "initialize" (handshakeParams s);
                EvConsoleError "Initialize request successful." None])
              "initialized" EmptyParams with
      | Some e => inl e
      | None => inr r
      end
  end.

(** The state a handshake that went through leaves. *)
Definition afterHandshake (s : State) : State :=
  mkState (mkLspClient (rootPath (client s)) true (openFiles (client s)))
          (history s ++ handshakeStart s ++
           [EvConsoleError "Initialize request successful." None;
            EvNotification "initialized" EmptyParams]).

(** The state in which a query started in [s] reaches the opening of its
    document: [s] itself on an initialized client, the state after the
    handshake otherwise, and none when the handshake fails. *)
Definition reachesDidOpen (w : World) (s : State) : option State :=
  if isInitialized (client s) then Some s
  else match handshake w s with
       | inl _ => None
       | inr _ => Some (afterHandshake s)
       end.

(** The world lets a query started in [s] read and announce the file: the
    opening is reached, the file system hands out the content and the server
    takes the notification. *)
Definition announced (w : World) (s : State) (filePath : string) : bool :=
  match reachesDidOpen w s with
  | None => false
  | Some s1 =>
      let full := path_resolve [rootPath (client s1); filePath] in
      match fs_readFile w (history s1) full with
      | inl _ => false
      | inr content =>
          match srv_notification w (history s1 ++ [EvReadFile full])
                  "textDocument/didOpen"
                  (DidOpenParams (uriOf (client s1) filePath)
                                 (getLanguageId filePath) 1 content) with
          | Some _ => false
          | None => true
          end
      end
  end.

(** [s'] is a later state of [s]: the root is the same, the history is
    extended, the open-file set has grown, the initialized flag was not
    reset, and the open-notifications delivered for a document are in step
    with its membership in the open-file set. *)
Definition inStep (s : State) : Prop :=
  forall u, countDidOpen u (history s) =
            if decide (u ∈ openFiles (client s)) then 1%nat else 0%nat.

Record later (s s' : State) : Prop := mkLater {
  later_root : rootPath (client s') = rootPath (client s);
  later_history : exists evs, history s' = (history s ++ evs)%list;
  later_open : openFiles (client s) ⊆ openFiles (client s');
  later_init : isInitialized (client s) = true -> isInitialized (client s') = true;
  later_inStep : inStep s -> inStep s'
}.

(** A computation all of whose runs end in a later state. *)
Definition advances {A} (m : M A) : Prop := forall w s, later s (after m w s).

End Runs.

(** ** Well-typed arguments of the position tools *)

Section Arguments_spec.

Context `{RT : JsRuntime}.

(** A value the schema of line and character lets through: any string, and
    any number but NaN. *)
Definition stringOrNumber (v : JVal) : bool :=
  match v with
  | JStr _ => true
  | JNum n => negb (isNaN n)
  | _ => false
  end.

Definition isString (v : JVal) : bool :=
  match v with
  | JStr _ => true
  | _ => false
  end.

(** Arguments with every required field present and of an accepted type. *)
Definition wellTyped (args : JVal) : bool :=
  match args with
  | JObj fields =>
      isString (getProp fields "filePath") &&
      stringOrNumber (getProp fields "line") &&
      stringOrNumber (getProp fields "character")
  | _ => false
  end.

(** The client query behind get_definition and get_references. *)
Definition positionQuery (toolName filePath : string) (ln ch : JsNumber) : Query :=
  if String.eqb toolName "get_definition" then QDefinition filePath ln ch
  else QReferences filePath ln ch.

Definition noReferences : string := "No references found for target function".

End Arguments_spec.

(** ** Occurrences of a query in a line *)

(** The code units of a string. *)
Definition chars (s : string) : list ascii := list_ascii_of_string s.

(** The query occurs in the line at index [j]. *)
Definition occursAt (ln query : string) (j : nat) : bool :=
  String.eqb (String.substring j (String.length query) ln) query.

(** The indexes from [k] on at which the query occurs in the line, in
    increasing order, overlapping occurrences included. *)
Definition occurrencesFrom (ln query : string) (k : nat) : list nat :=
  List.filter (occursAt ln query) (seq k (S (String.length ln) - k)).

(** The matches the search is to report for the lines numbered from [i]. *)
Fixpoint expectedMatches (lines : list string) (query : string) (i : Z) : list Match :=
  match lines with
  | [] => []
  | ln :: rest =>
      (map (fun j => mkMatch i (Z.of_nat j) (Js.trim ln)) (occurrencesFrom ln query 0)
       ++ expectedMatches rest query (i + 1))%list
  end.

(** ** Concrete data for closed statements *)

Module Examples.

#[local] Existing Instance Posix.runtime.

Definition pos (l c : Z) : Position := mkPosition l c.

(** A one-line reference token on line 5, characters 3 to 20. *)
Definition tokenOnLastLine : Location :=
  mkLocation "file:///proj/a.ts" (mkRange (pos 5 3) (pos 5 20)).

(** A declaration from line 0 to line 5, character 10. *)
Definition body : Range := mkRange (pos 0 0) (pos 5 10).




(** A world whose server accepts everything and answers null, and where
    no file can be read. *)
Definition noFile : World :=
  mkWorld (fun _ _ => inl (HostError "ENOENT: no such file or directory"))
          (fun _ _ => inr (mkInitializeResult "{}"))
          (fun _ _ => inr DefNull)
          (fun _ _ => inr None)
          (fun _ _ => inr None)
          (fun _ _ => inr None)
          (fun _ _ _ => None).

(** The bridge after a first handshake that went through. *)
Definition started : State := after ensureInitialized noFile initialState.

(** Two outline queries against the same file. *)
Definition twoQueries : list Query :=
  [QDocumentSymbols "a.ts"; QDocumentSymbols "a.ts"].

(** An outline with two functions, main (lines 0 to 5) and add (lines 7
    to 9), and a world whose server answers every outline request with it
    and every reference request with [refs]. *)
Definition mainSym : Symbol :=
  mkSymbol "main" (Some (mkRange (pos 0 0) (pos 5 1)))
           (Some (mkRange (pos 0 9) (pos 0 13))) None (Some []).

Definition addSym : Symbol :=
  mkSymbol "add" (Some (mkRange (pos 7 0) (pos 9 1)))
           (Some (mkRange (pos 7 9) (pos 7 12))) None (Some []).

Definition project (refs : option (list Location)) : World :=
  mkWorld (fun _ _ => inr "function main() {}")
          (fun _ _ => inr (mkInitializeResult "{}"))
          (fun _ _ => inr DefNull)
          (fun _ _ => inr refs)
          (fun _ _ => inr None)
          (fun _ _ => inr (Some [mainSym; addSym]))
          (fun _ _ _ => None).

Definition checkArgs (sourceFunction : string) : JVal :=
  JObj [("sourceFile", JStr "a.ts"); ("sourceFunction", JStr sourceFunction);
        ("targetFile", JStr "a.ts"); ("targetFunction", JStr "add")].

(** The states of a check_function_call against [project refs]: after the
    first outline request, the second one, and the reference request. *)
Definition afterSourceOutline (refs : option (list Location)) : State :=
  after (getDocumentSymbols "a.ts") (project refs) initialState.

Definition afterTargetOutline (refs : option (list Location)) : State :=
  after (getDocumentSymbols "a.ts") (project refs) (afterSourceOutline refs).

Definition afterReferences (refs : option (list Location)) : State :=
  after (getReferences "a.ts" (Number_of_Z 7) (Number_of_Z 9)) (project refs)
        (afterTargetOutline refs).

(** Arguments of get_definition with a line that is no number, and with
    no line at all. *)
Definition lineNotNumeric : JVal :=
  JObj [("filePath", JStr "a.ts"); ("line", JStr "abc"); ("character", JStr "0")].

Definition lineMissing : JVal :=
  JObj [("filePath", JStr "a.ts"); ("character", JStr "0")].

(** A search for the empty string. *)
Definition emptyQuery : JVal :=
  JObj [("filePath", JStr "a.ts"); ("query", JStr EmptyString)].

(** A search for a query of two lines. *)
Definition twoLineQuery : JVal :=
  JObj [("filePath", JStr "a.ts"); ("query", JStr ("{" ++ nl ++ "}"))].

End Examples.

(** ** index.ts: the ListToolsRequestSchema handler *)

(** A property of an input schema: its name, its type and its description. *)
Record ToolProperty := mkToolProperty {
  prop_name : string;
  prop_type : string;
  prop_description : string
}.

(** A tool as it is listed: every input schema is an object. *)
Record Tool := mkTool {
  tool_name : string;
  tool_description : string;
  tool_properties : list ToolProperty;
  tool_required : list string
}.

Definition listTools : list Tool :=
  [ mkTool "get_definition"
      "Get the definition location of a symbol. Returns the file path, line, and character where the symbol is defined. Tip: Use 'search_in_file' to find the exact line and character of the symbol you are interested in."
      [ mkToolProperty "filePath" "string"
          "The absolute path to the file containing the symbol usage (e.g. /path/to/project/src/index.ts)";
        mkToolProperty "line" "string"
          "The 0-based line number where the symbol is located";
        mkToolProperty "character" "string"
          "The 0-based character offset on the line where the symbol is located" ]
      ["filePath"; "line"; "character"];
    mkTool "get_references"
      "Find all references to a symbol. Returns a list of locations where the symbol is used. Tip: Use 'search_in_file' to find the exact line and character of the symbol definition or usage."
      [ mkToolProperty "filePath" "string"
          "The absolute path to the file containing the symbol definition or usage";
        mkToolProperty "line" "string" "The 0-based line number of the symbol";
        mkToolProperty "character" "string" "The 0-based character offset of the symbol" ]
      ["filePath"; "line"; "character"];
    mkTool "search_in_file"
      "Search for a string in a file to find its line and character position. Useful for finding the arguments for get_definition."
      [ mkToolProperty "filePath" "string" "The absolute path to the file to search in";
        mkToolProperty "query" "string" "The string to search for" ]
      ["filePath"; "query"];
    mkTool "check_function_call"
      "Check if one function calls another (direct call). Analyzes if 'sourceFunction' (defined in sourceFile) contains any references to 'targetFunction' (defined in targetFile)."
      [ mkToolProperty "sourceFile" "string"
          "The absolute path to the file containing the definition of the caller function";
        mkToolProperty "sourceFunction" "string"
          "The name of the caller function (e.g. 'main')";
        mkToolProperty "targetFile" "string"
          "The absolute path to the file containing the definition of the callee function";
        mkToolProperty "targetFunction" "string"
          "The name of the callee function (e.g. 'add')" ]
      ["sourceFile"; "sourceFunction"; "targetFile"; "targetFunction"] ].

(** ** The symbols of an outline *)

(** A symbol is a node of an outline when it is one of the list or a child
    of a node of the outline. *)
Inductive nodeOf (symbols : list Symbol) : Symbol -> Prop :=
| nodeOf_top (sym : Symbol) : In sym symbols -> nodeOf symbols sym
| nodeOf_child (parent : Symbol) (cs : list Symbol) (sym : Symbol) :
    nodeOf symbols parent -> children parent = Some cs -> In sym cs ->
    nodeOf symbols sym.

(** ** Runs of tool calls *)

Section ToolRuns.

Context `{RT : JsRuntime}.

(** The issues the schema of a tool finds in its arguments: none when the
    arguments pass, and no schema at all for a name that is no tool. *)
Definition schemaIssues (toolName : string) (args : JVal) : option (list ZodIssue) :=
  if String.eqb toolName "get_definition" || String.eqb toolName "get_references"
  then Some (issues_of (argsSchema args))
  else if String.eqb toolName "search_in_file" then Some (issues_of (searchSchema args))
  else if String.eqb toolName "check_function_call" then Some (issues_of (checkSchema args))
  else None.

(** Tool calls issued one after the other, each with its name and its
    arguments. *)
Definition runCalls (fuel : nat) (w : World) (calls : list (string * JVal)) (s : State)
    : State :=
  fold_left (fun s c => after (callTool fuel (fst c) (snd c)) w s) calls s.

(** The client queries the tools make: all but hover. *)
Definition toolQuery (q : Query) : bool :=
  match q with
  | QHover _ _ _ => false
  | _ => true
  end.

(** The delivered notification that ends the handshake. *)
Definition isInitializedNotification (ev : Event) : bool :=
  match ev with
  | EvNotification method _ => String.eqb method "initialized"
  | _ => false
  end.

Definition countInitialized (h : list Event) : nat :=
  length (List.filter isInitializedNotification h).

(** A message about a document: every request but initialize, and every
    notification, delivered or not, but initialized. *)
Definition isDocumentMessage (ev : Event) : bool :=
  match ev with
  | EvRequest method _ => negb (String.eqb method "initialize")
  | EvNotification method _ => negb (String.eqb method "initialized")
  | EvNotificationFailed method _ => negb (String.eqb method "initialized")
  | _ => false
  end.

(** The order the protocol asks for: no message about a document before the
    initialized notification was delivered.  [seen] says it was. *)
Fixpoint protocolOrder (seen : bool) (h : list Event) : bool :=
  match h with
  | [] => true
  | ev :: rest =>
      if isInitializedNotification ev then protocolOrder true rest
      else if isDocumentMessage ev then seen && protocolOrder seen rest
      else protocolOrder seen rest
  end.

(** The effects the client has: the handshake, the announcement of a
    document at version 1, the requests for definitions, for references with
    the declaration included, for outlines and, when [hover] says so, for
    hovers; file reads and log entries. *)
Definition clientEvent (hover : bool) (ev : Event) : bool :=
  match ev with
  | EvRequest method (InitializeParams _) => String.eqb method "initialize"
  | EvRequest method (TextDocumentPositionParams _ _ _) =>
      String.eqb method "textDocument/definition" ||
      (hover && String.eqb method "textDocument/hover")
  | EvRequest method (ReferenceParams _ _ _ includeDeclaration) =>
      String.eqb method "textDocument/references" && includeDeclaration
  | EvRequest method (DocumentSymbolParams _) =>
      String.eqb method "textDocument/documentSymbol"
  | EvRequest _ _ => false
  | EvNotification method EmptyParams
  | EvNotificationFailed method EmptyParams => String.eqb method "initialized"
  | EvNotification method (DidOpenParams _ _ version _)
  | EvNotificationFailed method (DidOpenParams _ _ version _) =>
      String.eqb method "textDocument/didOpen" && (version =? 1)
  | EvNotification _ _ | EvNotificationFailed _ _ => false
  | EvReadFile _ => true
  | EvConsoleError _ _ => true
  end.

(** The state of the handshake as the history shows it: the initialized
    notification was delivered once if the client is initialized and never
    if it is not; no message about a document came before it; and every
    effect is one of the client's. *)
Record orderly (hover : bool) (s : State) : Prop := mkOrderly {
  orderly_once :
    countInitialized (history s) = if isInitialized (client s) then 1%nat else 0%nat;
  orderly_order : protocolOrder false (history s) = true;
  orderly_events : forallb (clientEvent hover) (history s) = true
}.

(** What a failed handshake leaves behind after its request: log entries
    and, at most, an initialized notification that was not delivered. *)
Definition handshakeNoise (ev : Event) : bool :=
  match ev with
  | EvConsoleError _ _ => true
  | EvNotificationFailed method EmptyParams => String.eqb method "initialized"
  | _ => false
  end.

(** The text of get_definition for an answer of the server. *)
Definition definitionText (r : DefinitionResult) : string :=
  match r with
  | DefNull => "No definition found."
  | DefOne l => formatLocation l
  | DefMany ls => join (nl ++ nl) (map formatLocation ls)
  end.

(** The sum of the lengths of the lines before line [i], each with its
    newline: the offset of line [i] in the content. *)
Fixpoint lineOffset (lines : list string) (i : nat) : nat :=
  match i, lines with
  | O, _ => O
  | S i', ln :: rest => (S (String.length ln) + lineOffset rest i')%nat
  | S _, [] => O
  end.

End ToolRuns.

(** ** More concrete data *)

Module MoreExamples.

#[local] Existing Instance Posix.runtime.

(** A world whose server rejects the handshake. *)
Definition noServer : World :=
  mkWorld (fun _ _ => inr "function main() {}")
          (fun _ _ => inl (HostError "Connection is closed."))
          (fun _ _ => inr DefNull)
          (fun _ _ => inr None)
          (fun _ _ => inr None)
          (fun _ _ => inr None)
          (fun _ _ _ => None).

(** A world with one file, whose server knows one definition and rejects
    every reference request. *)
Definition oneDefinition : World :=
  mkWorld (fun _ _ => inr ("const a = 1;" ++ nl ++ "aaa"))
          (fun _ _ => inr (mkInitializeResult "{}"))
          (fun _ _ => inr (DefMany []))
          (fun _ _ => inl (HostError "Request failed."))
          (fun _ _ => inr None)
          (fun _ _ => inr (Some [Examples.mainSym; Examples.addSym]))
          (fun _ _ _ => None).

(** The bridge once a.ts was opened in [oneDefinition]. *)
Definition opened : State :=
  after (getDefinition "a.ts" (Number_of_Z 0) (Number_of_Z 6)) oneDefinition initialState.

Definition positionArgs : JVal :=
  JObj [("filePath", JStr "a.ts"); ("line", JNum (Number_of_Z 0)); ("character", JStr "6")].

Definition searchArgs (query : string) : JVal :=
  JObj [("filePath", JStr "a.ts"); ("query", JStr query)].

(** A reference to add inside main and one after it. *)
Definition callInMain : Location :=
  mkLocation "file:///proj/a.ts" (mkRange (Examples.pos 2 10) (Examples.pos 2 13)).

Definition callOutside : Location :=
  mkLocation "file:///proj/a.ts" (mkRange (Examples.pos 8 2) (Examples.pos 8 5)).

(** A symbol that has a name and nothing else. *)
Definition bareSym : Symbol := mkSymbol "add" None None None None.

Definition bareProject : World :=
  mkWorld (fun _ _ => inr "function main() {}")
          (fun _ _ => inr (mkInitializeResult "{}"))
          (fun _ _ => inr DefNull)
          (fun _ _ => inr None)
          (fun _ _ => inr None)
          (fun _ _ => inr (Some [Examples.mainSym; bareSym]))
          (fun _ _ _ => None).

End MoreExamples.

(** * Properties *)

(** Histories are compared with their appends nested to the right. *)
Ltac flat := rewrite <- ?app_assoc in *; cbn [app] in *.


(** ** Range containment *)

Section Containment.

Context `{RT : JsRuntime}.

Ltac zcases :=
  rewrite ?Z.gtb_ltb in *;
  repeat match goal with
         | |- context [(?a <? ?b)%Z] => destruct (Z.ltb_spec a b)
         | |- context [(?a =? ?b)%Z] => destruct (Z.eqb_spec a b)
         | |- context [(?a <=? ?b)%Z] => destruct (Z.leb_spec a b)
         | H : context [(?a <? ?b)%Z] |- _ => destruct (Z.ltb_spec a b)
         | H : context [(?a =? ?b)%Z] |- _ => destruct (Z.eqb_spec a b)
         | H : context [(?a <=? ?b)%Z] |- _ => destruct (Z.leb_spec a b)
         end;
  cbn [orb andb negb] in *.

Lemma samePath_eqb (u f : string) :
  String.eqb (path_resolve [Js.replace u "file://" EmptyString])
             (path_resolve [PROJECT_ROOT; f]) = true <-> samePath u f.
Proof. unfold samePath. apply String.eqb_eq. Qed.

(** What the code decides, spelled out: the paths agree, the start line of
    the location is a line of the range, on the first line of the range the
    location does not start before the range, and on its last line the
    location does not END after the range. *)
Lemma isLocationInRange_true (loc : Location) (r : Range) (f : string) :
  isLocationInRange loc r f = true <->
  samePath (uri loc) f /\
  line (start r) <= line (start (range loc)) <= line (end_ r) /\
  (line (start (range loc)) = line (start r) ->
   character (start r) <= character (start (range loc))) /\
  (line (start (range loc)) = line (end_ r) ->
   character (end_ (range loc)) <= character (end_ r)).
Proof.
  rewrite <- samePath_eqb. unfold isLocationInRange.
  destruct (String.eqb _ _); cbn [negb].
  - zcases; split; intros; try discriminate; intuition (try lia; auto).
  - split; [discriminate | intros [? _]; discriminate].
Qed.

(** C1, as amended: isLocationInRange returns true if and only if the
    document of the location resolves to the path of the reference file
    resolved against the project root, the start line of the location lies
    in the lines of the range, a location starting on the first line of the
    range starts at or after the range's start character, and a location
    starting on the last line of the range ends (end character) at or before
    the range's end character. *)
Theorem isLocationInRange_iff (loc : Location) (r : Range) (f : string) :
  isLocationInRange loc r f = true <->
  samePath (uri loc) f /\
  line (start r) <= line (start (range loc)) <= line (end_ r) /\
  (line (start (range loc)) = line (start r) ->
   character (start r) <= character (start (range loc))) /\
  (line (start (range loc)) = line (end_ r) ->
   character (end_ (range loc)) <= character (end_ r)).
Proof. apply isLocationInRange_true. Qed.


End Containment.



(** C1, as stated, fails: a reference token that starts inside the range on
    its last line but ends after the range's end character is rejected,
    although its start lies within the range. *)
Lemma isLocationInRange_not_by_start_alone :
  samePath (RT := Posix.runtime) (uri Examples.tokenOnLastLine) "a.ts" /\
  startWithin Examples.tokenOnLastLine Examples.body = true /\
  isLocationInRange (RT := Posix.runtime)
    Examples.tokenOnLastLine Examples.body "a.ts" = false.
Proof. repeat split. Qed.

(** ** The client: how a state evolves *)

Section Client.

Context `{RT : JsRuntime}.

Lemma later_refl s : later s s.
Proof.
  split; auto. exists []. by rewrite app_nil_r.
Qed.

Lemma later_trans s1 s2 s3 : later s1 s2 -> later s2 s3 -> later s1 s3.
Proof.
  intros [R1 [e1 H1] O1 I1 S1] [R2 [e2 H2] O2 I2 S2]. split.
  - congruence.
  - exists (e1 ++ e2)%list. by rewrite H2, H1, app_assoc.
  - set_solver.
  - auto.
  - auto.
Qed.

Lemma advances_ret {A} (a : A) : advances (ret a).
Proof. intros w s. apply later_refl. Qed.

Lemma advances_throw {A} (e : Exn) : advances (throw (A := A) e).
Proof. intros w s. apply later_refl. Qed.

Lemma advances_bind {A B} (m : M A) (k : A -> M B) :
  advances m -> (forall a, advances (k a)) -> advances (bind m k).
Proof.
  intros Hm Hk w s. specialize (Hm w s). unfold after, bind in *.
  destruct (m w s) as [[a | e |] s1]; cbn in *; auto.
  eapply later_trans; [exact Hm | apply Hk].
Qed.

Lemma advances_try_catch {A} (m : M A) (h : Exn -> M A) :
  advances m -> (forall e, advances (h e)) -> advances (try_catch m h).
Proof.
  intros Hm Hh w s. specialize (Hm w s). unfold after, try_catch in *.
  destruct (m w s) as [[a | e |] s1]; cbn in *; auto.
  eapply later_trans; [exact Hm | apply Hh].
Qed.

Lemma advances_getClient : advances getClient.
Proof. intros w s. apply later_refl. Qed.

Lemma countDidOpen_app u h1 h2 :
  countDidOpen u (h1 ++ h2) = (countDidOpen u h1 + countDidOpen u h2)%nat.
Proof. unfold countDidOpen. by rewrite List.filter_app, length_app. Qed.

(** Effects among which there is no delivered open-notification leave the
    client as it is and extend the history. *)
Lemma later_events (s s' : State) (evs : list Event) :
  client s' = client s ->
  history s' = (history s ++ evs)%list ->
  (forall u, countDidOpen u evs = 0%nat) ->
  later s s'.
Proof.
  intros Hc Hh Hev. split; rewrite ?Hc; auto.
  - by exists evs.
  - intros Hs u. rewrite Hh, Hc, countDidOpen_app, (Hs u), Hev. lia.
Qed.

Ltac one_event :=
  eapply later_events;
  [reflexivity | cbn [history]; rewrite <- ?app_assoc; reflexivity | done].

Lemma advances_console_error msg err : advances (console_error msg err).
Proof. intros w s. one_event. Qed.

Lemma advances_readFile path : advances (readFile path).
Proof.
  intros w s. unfold after, readFile.
  destruct (fs_readFile w (history s) path); one_event.
Qed.

Lemma advances_sendRequest {A} (oracle : World -> list Event -> Params -> Exn + A)
    method params :
  advances (sendRequest oracle method params).
Proof.
  intros w s. unfold after, sendRequest.
  destruct (oracle w (history s) params); one_event.
Qed.

Lemma advances_sendNotification_initialized :
  advances (sendNotification "initialized" EmptyParams).
Proof.
  intros w s. unfold after, sendNotification.
  destruct (srv_notification w (history s) "initialized" EmptyParams);
    one_event.
Qed.

Lemma later_setInitialized (s : State) :
  later s (mkState (mkLspClient (rootPath (client s)) true (openFiles (client s)))
                   (history s)).
Proof.
  split; cbn; auto.
  exists []. by rewrite app_nil_r.
Qed.

Lemma advances_initialize : advances initialize.
Proof.
  unfold initialize. apply advances_bind; [apply advances_getClient |].
  intros c. destruct (isInitialized c); [apply advances_ret |].
  apply advances_bind; [apply advances_console_error | intros ?].
  apply advances_try_catch.
  - apply advances_bind; [apply advances_console_error | intros ?].
    apply advances_bind; [apply advances_sendRequest | intros r].
    apply advances_bind; [apply advances_console_error | intros ?].
    apply advances_bind; [apply advances_sendNotification_initialized | intros ?].
    intros w s. apply later_setInitialized.
  - intros e. apply advances_bind; [apply advances_console_error | intros ?].
    apply advances_throw.
Qed.

Lemma advances_ensureInitialized : advances ensureInitialized.
Proof.
  unfold ensureInitialized. apply advances_bind; [apply advances_getClient |].
  intros c. destruct (negb (isInitialized c)); [| apply advances_ret].
  apply advances_bind; [apply advances_initialize | intros ?; apply advances_ret].
Qed.

(** The state [didOpen] leaves when the file was read and announced. *)
Lemma later_opened (s : State) (docUri path lang content : string) :
  docUri ∉ openFiles (client s) ->
  later s
    (mkState (mkLspClient (rootPath (client s)) (isInitialized (client s))
                          (openFiles (client s) ∪ {[docUri]}))
             ((history s ++ [EvReadFile path]) ++
              [EvNotification "textDocument/didOpen"
                 (DidOpenParams docUri lang 1 content)])).
Proof.
  intros Hnew. split; cbn [client history rootPath isInitialized openFiles]; auto.
  - eexists. by rewrite <- app_assoc.
  - set_solver.
  - intros Hs u. cbn [client history openFiles].
    rewrite !countDidOpen_app, (Hs u).
    unfold countDidOpen. cbn.
    destruct (String.eqb_spec docUri u) as [Heq | Hne]; cbn;
      destruct (decide (u ∈ openFiles (client s))) as [H1 | H1];
      destruct (decide (u ∈ openFiles (client s) ∪ {[docUri]})) as [H2 | H2];
      try lia; exfalso; rewrite elem_of_union, elem_of_singleton in H2;
      intuition congruence.
Qed.

Lemma advances_didOpen (filePath : string) : advances (didOpen filePath).
Proof.
  intros w s. unfold after, didOpen, bind, getClient, try_catch, readFile,
    sendNotification, setClient, console_error, emit, ret.
  cbn. set (fullPath := path_resolve _).
  destruct (decide _) as [Hin | Hnew]; cbn; [apply later_refl |].
  destruct (fs_readFile _ _ _) as [e | content]; cbn.
  - one_event.
  - destruct (srv_notification _ _ _ _) as [e |]; cbn.
    + one_event.
    + by apply later_opened.
Qed.

Lemma advances_runQuery (q : Query) : advances (runQuery q).
Proof.
  destruct q; cbn;
    (apply advances_bind; [| intros ?; apply advances_ret]);
    (apply advances_bind; [apply advances_ensureInitialized | intros ?]);
    (apply advances_bind; [apply advances_didOpen | intros ?]);
    (apply advances_bind; [apply advances_getClient | intros c]);
    apply advances_sendRequest.
Qed.

Lemma later_runQueries (w : World) (qs : list Query) (s : State) :
  later s (runQueries w qs s).
Proof.
  revert s. induction qs as [| q qs IH]; intros s; cbn.
  - apply later_refl.
  - eapply later_trans; [apply advances_runQuery | apply IH].
Qed.

Lemma runQueries_app (w : World) (qs1 qs2 : list Query) (s : State) :
  runQueries w (qs1 ++ qs2) s = runQueries w qs2 (runQueries w qs1 s).
Proof. unfold runQueries. apply fold_left_app. Qed.

Lemma inStep_initialState : inStep initialState.
Proof. intros u. cbn. by rewrite decide_False by set_solver. Qed.

End Client.

(** *** The handshake and the runs of a query *)

Section Handshake.

Context `{RT : JsRuntime}.

Lemma initialize_done (w : World) (s : State) :
  isInitialized (client s) = true -> initialize w s = (Returned None, s).
Proof.
  intros Hi. unfold initialize, bind, getClient. by rewrite Hi.
Qed.

Lemma ensureInitialized_done (w : World) (s : State) :
  isInitialized (client s) = true -> ensureInitialized w s = (Returned tt, s).
Proof.
  intros Hi. unfold ensureInitialized, bind, getClient. by rewrite Hi.
Qed.

(** A handshake that goes through. *)
Lemma initialize_success (w : World) (s : State) (r : InitializeResult) :
  isInitialized (client s) = false ->
  handshake w s = inr r ->
  initialize w s =
    (Returned (Some r),
     mkState (mkLspClient (rootPath (client s)) true (openFiles (client s)))
             (history s ++ handshakeStart s ++
              [EvConsoleError "Initialize request successful." None;
               EvNotification "initialized" EmptyParams])).
Proof.
  intros Hi Hh. unfold handshake, handshakeHistory, handshakeParams in Hh.
  unfold initialize, bind, getClient, try_catch, console_error, emit,
    sendRequest, sendNotification, setClient, ret, throw.
  rewrite Hi. cbn. flat.
  destruct (srv_initialize _ _ _) as [e | r']; [discriminate |]. cbn. flat.
  destruct (srv_notification _ _ _ _); [discriminate |].
  injection Hh as ->. cbn. flat. reflexivity.
Qed.

(** A handshake that fails: the error is thrown, the client is as before. *)
Lemma initialize_failure (w : World) (s : State) (e : Exn) :
  isInitialized (client s) = false ->
  handshake w s = inl e ->
  exists evs,
    initialize w s =
      (Thrown e, mkState (client s) (history s ++ handshakeStart s ++ evs)).
Proof.
  intros Hi Hh. unfold handshake, handshakeHistory, handshakeParams in Hh.
  unfold initialize, bind, getClient, try_catch, console_error, emit,
    sendRequest, sendNotification, setClient, ret, throw.
  rewrite Hi. cbn. flat.
  destruct (srv_initialize _ _ _) as [e' | r'].
  - injection Hh as ->. cbn. flat. eexists. reflexivity.
  - cbn. flat.
    destruct (srv_notification _ _ _ _) as [e' |]; [| discriminate].
    injection Hh as ->. cbn. flat. eexists. reflexivity.
Qed.

Lemma ensureInitialized_fresh (w : World) (s : State) :
  isInitialized (client s) = false ->
  ensureInitialized w s =
    match initialize w s with
    | (Returned _, s') => (Returned tt, s')
    | (Thrown e, s') => (Thrown e, s')
    | (Unfinished, s') => (Unfinished, s')
    end.
Proof.
  intros Hi. unfold ensureInitialized, bind, getClient, ret. rewrite Hi. cbn.
  by destruct (initialize w s) as [[] ?].
Qed.

(** When [ensureInitialized] returns, the client is initialized. *)
Lemma ensureInitialized_returned (w : World) (s s1 : State) :
  ensureInitialized w s = (Returned tt, s1) -> isInitialized (client s1) = true.
Proof.
  destruct (isInitialized (client s)) eqn:Hi.
  - rewrite ensureInitialized_done by done. congruence.
  - rewrite ensureInitialized_fresh by done.
    destruct (handshake w s) as [e | r] eqn:Hh.
    + destruct (initialize_failure w s e Hi Hh) as [evs ->]. discriminate.
    + rewrite (initialize_success w s r Hi Hh). by intros [= <-].
Qed.

(** An uninitialized client starts every [ensureInitialized] with the
    handshake. *)
Lemma ensureInitialized_handshake (w : World) (s : State) :
  isInitialized (client s) = false ->
  exists evs,
    history (after ensureInitialized w s) = (history s ++ handshakeStart s ++ evs)%list.
Proof.
  intros Hi. unfold after. rewrite ensureInitialized_fresh by done.
  destruct (handshake w s) as [e | r] eqn:Hh.
  - destruct (initialize_failure w s e Hi Hh) as [evs ->]. by exists evs.
  - rewrite (initialize_success w s r Hi Hh). cbn [snd history]. by eexists.
Qed.

Lemma later_after_bind {A B} (m : M A) (k : A -> M B) (w : World) (s : State) :
  (forall a, advances (k a)) -> later (after m w s) (after (bind m k) w s).
Proof.
  intros Hk. unfold after, bind.
  destruct (m w s) as [[a | e |] s1]; cbn; try apply later_refl. apply Hk.
Qed.

Lemma later_ensureInitialized_runQuery (q : Query) (w : World) (s : State) :
  later (after ensureInitialized w s) (after (runQuery q) w s).
Proof.
  destruct q; cbn [runQuery];
    (eapply later_trans; [| apply later_after_bind; intros ?; apply advances_ret]);
    apply later_after_bind; intros ?;
    (apply advances_bind; [apply advances_didOpen | intros ?]);
    (apply advances_bind; [apply advances_getClient | intros ?]);
    apply advances_sendRequest.
Qed.

(** An uninitialized client starts every query with the handshake. *)
Lemma runQuery_handshake (q : Query) (w : World) (s : State) :
  isInitialized (client s) = false ->
  exists evs,
    history (after (runQuery q) w s) = (history s ++ handshakeStart s ++ evs)%list.
Proof.
  intros Hi.
  destruct (ensureInitialized_handshake w s Hi) as [evs1 H1].
  destruct (later_history _ _ (later_ensureInitialized_runQuery q w s)) as [evs2 H2].
  exists (evs1 ++ evs2)%list. rewrite H2, H1. by rewrite <- !app_assoc.
Qed.

(** C5: initialize is sticky on success only.  On an initialized client it
    returns at once, with no effect.  Otherwise, when the handshake goes
    through, the client is initialized and every call of initialize in a
    later state returns at once, with no effect; when the handshake fails,
    the error is thrown, the client is as before (not initialized), and the
    next query, whichever it is, starts with the handshake again. *)
Theorem initialize_sticky_on_success_only (w : World) (s : State) :
  if isInitialized (client s) then initialize w s = (Returned None, s)
  else
    match handshake w s with
    | inr r =>
        exists s',
          initialize w s = (Returned (Some r), s') /\
          isInitialized (client s') = true /\
          (forall s'' w', later s' s'' -> initialize w' s'' = (Returned None, s''))
    | inl e =>
        exists s',
          initialize w s = (Thrown e, s') /\
          client s' = client s /\
          isInitialized (client s') = false /\
          (forall w' q, exists evs,
             history (after (runQuery q) w' s') =
             (history s' ++ handshakeStart s' ++ evs)%list)
    end.
Proof.
  destruct (isInitialized (client s)) eqn:Hi; [by apply initialize_done |].
  destruct (handshake w s) as [e | r] eqn:Hh.
  - destruct (initialize_failure w s e Hi Hh) as [evs Hf].
    eexists. split; [exact Hf |]. cbn [client]. repeat split; [done |].
    intros w' q. by apply runQuery_handshake.
  - eexists. split; [by apply initialize_success |]. cbn [client isInitialized].
    split; [done |]. intros s'' w' Hl. apply initialize_done.
    by apply (later_init _ _ Hl).
Qed.

End Handshake.

(** *** Opening a document *)

Section Opening.

Context `{RT : JsRuntime}.

Lemma didOpen_opened (w : World) (s : State) (f : string) :
  uriOf (client s) f ∈ openFiles (client s) -> didOpen f w s = (Returned tt, s).
Proof.
  intros Hin. unfold didOpen, bind, getClient, ret. cbn.
  by rewrite decide_True.
Qed.

(** The run of [didOpen] on a document that is not in the open-file set:
    it always returns, whatever the read and the notification do. *)
Lemma didOpen_unopened (w : World) (s : State) (f : string) :
  uriOf (client s) f ∉ openFiles (client s) ->
  didOpen f w s =
    (Returned tt,
     let full := path_resolve [rootPath (client s); f] in
     match fs_readFile w (history s) full with
     | inl e => mkState (client s) (history s ++ [EvReadFile full; failedToOpen f e])
     | inr content =>
         let params := DidOpenParams (uriOf (client s) f) (getLanguageId f) 1 content in
         match srv_notification w (history s ++ [EvReadFile full])
                 "textDocument/didOpen" params with
         | Some e =>
             mkState (client s)
               (history s ++ [EvReadFile full;
                              EvNotificationFailed "textDocument/didOpen" params;
                              failedToOpen f e])
         | None =>
             mkState (mkLspClient (rootPath (client s)) (isInitialized (client s))
                                  (openFiles (client s) ∪ {[uriOf (client s) f]}))
               (history s ++ [EvReadFile full;
                              EvNotification "textDocument/didOpen" params])
         end
     end).
Proof.
  intros Hnew. unfold didOpen, bind, getClient, try_catch, readFile,
    sendNotification, setClient, console_error, emit, ret.
  cbn. fold (uriOf (client s) f). rewrite decide_False by done.
  destruct (fs_readFile _ _ _) as [e | content]; cbn; flat; [done |].
  destruct (srv_notification _ _ _ _) as [e |]; cbn; flat; done.
Qed.

Lemma didOpen_returns (w : World) (s : State) (f : string) :
  didOpen f w s = (Returned tt, after (didOpen f) w s).
Proof.
  destruct (decide (uriOf (client s) f ∈ openFiles (client s))).
  - unfold after. by rewrite didOpen_opened.
  - unfold after. by rewrite didOpen_unopened.
Qed.

(** The run of a query on an initialized client: the document is opened (or
    not), then the request is sent. *)
Lemma runQuery_initialized (w : World) (s : State) (q : Query) :
  isInitialized (client s) = true ->
  after (runQuery q) w s =
    let s2 := after (didOpen (queryFile q)) w s in
    mkState (client s2)
            (history s2 ++ [queryRequest q (uriOf (client s2) (queryFile q))]).
Proof.
  intros Hi. unfold after at 1.
  destruct q; cbn [runQuery queryFile queryRequest];
    unfold getDefinition, getReferences, getHover, getDocumentSymbols, bind;
    rewrite (ensureInitialized_done w s Hi), didOpen_returns;
    unfold getClient, sendRequest, ret, uriOf; cbn;
    match goal with |- context [match ?o with inl _ => _ | inr _ => _ end] =>
      destruct o end; reflexivity.
Qed.

(** C9: a failed read in didOpen is logged and swallowed, the query is still
    sent, and the open-file set is as before; so the next query against the
    file reads it again, and announces it when that read succeeds. *)
Theorem didOpen_read_failure_retried
    (w : World) (s : State) (q : Query) (e : Exn) :
  let f := queryFile q in
  let full := path_resolve [rootPath (client s); f] in
  let u := uriOf (client s) f in
  isInitialized (client s) = true ->
  u ∉ openFiles (client s) ->
  fs_readFile w (history s) full = inl e ->
  didOpen f w s =
    (Returned tt, mkState (client s) (history s ++ [EvReadFile full; failedToOpen f e])) /\
  let s' := after (runQuery q) w s in
  client s' = client s /\
  history s' = (history s ++ [EvReadFile full; failedToOpen f e; queryRequest q u])%list /\
  forall (w' : World) (q' : Query),
    queryFile q' = f ->
    let s'' := after (runQuery q') w' s' in
    match fs_readFile w' (history s') full with
    | inl e' =>
        client s'' = client s' /\
        history s'' =
          (history s' ++ [EvReadFile full; failedToOpen f e'; queryRequest q' u])%list
    | inr content =>
        let params := DidOpenParams u (getLanguageId f) 1 content in
        match srv_notification w' (history s' ++ [EvReadFile full])
                "textDocument/didOpen" params with
        | None =>
            u ∈ openFiles (client s'') /\
            history s'' =
              (history s' ++ [EvReadFile full;
                              EvNotification "textDocument/didOpen" params;
                              queryRequest q' u])%list
        | Some e' =>
            client s'' = client s' /\
            history s'' =
              (history s' ++ [EvReadFile full;
                              EvNotificationFailed "textDocument/didOpen" params;
                              failedToOpen f e'; queryRequest q' u])%list
        end
    end.
Proof.
  intros f full u Hi Hnew Hread.
  assert (Hd : didOpen f w s =
    (Returned tt, mkState (client s) (history s ++ [EvReadFile full; failedToOpen f e]))).
  { rewrite didOpen_unopened by done. cbn zeta. fold full. by rewrite Hread. }
  split; [exact Hd |].
  assert (Hs' : after (runQuery q) w s =
    mkState (client s) (history s ++ [EvReadFile full; failedToOpen f e; queryRequest q u])).
  { rewrite runQuery_initialized by done. fold f. unfold after. rewrite Hd.
    cbn. flat. reflexivity. }
  cbn zeta. rewrite Hs'. cbn [client history]. repeat split.
  intros w' q' Hq'.
  rewrite runQuery_initialized by done. rewrite Hq'. unfold after.
  rewrite didOpen_unopened by done. cbn [snd client history rootPath].
  fold full. fold u.
  destruct (fs_readFile w' _ full) as [e' | content]; cbn [client history]; flat.
  - done.
  - destruct (srv_notification w' _ _ _) as [e' |];
      cbn [client history rootPath openFiles]; flat.
    + done.
    + split; [| done]. apply elem_of_union_r. by apply elem_of_singleton.
Qed.

End Opening.

Lemma didOpen_read_failure_retried_witness :
  let q := QDocumentSymbols (RT := Posix.runtime) "a.ts" in
  client (after (runQuery q) Examples.noFile Examples.started) =
  client Examples.started.
Proof.
  intros q.
  apply (didOpen_read_failure_retried (RT := Posix.runtime)
           Examples.noFile Examples.started q
           (HostError "ENOENT: no such file or directory")).
  - reflexivity.
  - vm_compute. intros H. discriminate H.
  - reflexivity.
Defined.

(** *** The open-file set *)

Section OpenOnce.

Context `{RT : JsRuntime}.

(** A query goes on, after [ensureInitialized] returned, as it would from
    the state [ensureInitialized] left. *)
Lemma runQuery_ensured (q : Query) (w : World) (s s1 : State) :
  ensureInitialized w s = (Returned tt, s1) ->
  after (runQuery q) w s = after (runQuery q) w s1.
Proof.
  intros He.
  pose proof (ensureInitialized_done w s1 (ensureInitialized_returned w s s1 He)) as H1.
  unfold after.
  destruct q; cbn [runQuery];
    unfold getDefinition, getReferences, getHover, getDocumentSymbols;
    unfold bind at 1 2; rewrite He; symmetry;
    unfold bind at 1 2; rewrite H1; reflexivity.
Qed.

(** A query stops where [ensureInitialized] throws. *)
Lemma runQuery_not_ensured (q : Query) (w : World) (s s1 : State) (e : Exn) :
  ensureInitialized w s = (Thrown e, s1) ->
  after (runQuery q) w s = s1.
Proof.
  intros He. unfold after.
  destruct q; cbn [runQuery];
    unfold getDefinition, getReferences, getHover, getDocumentSymbols;
    unfold bind at 1 2; rewrite He; reflexivity.
Qed.

(** On an initialized client, the document of a query is in the open-file
    set afterwards exactly when it was there before or the file is read and
    announced now. *)
Lemma runQuery_opens_initialized (q : Query) (w : World) (s : State) :
  isInitialized (client s) = true ->
  uriOf (client s) (queryFile q) ∈ openFiles (client (after (runQuery q) w s)) <->
  uriOf (client s) (queryFile q) ∈ openFiles (client s) \/
  announced w s (queryFile q) = true.
Proof.
  intros Hi. rewrite runQuery_initialized by done. cbn zeta. cbn [client].
  unfold announced, reachesDidOpen. rewrite Hi. unfold after.
  destruct (decide (uriOf (client s) (queryFile q) ∈ openFiles (client s)))
    as [Hin | Hnew].
  - rewrite didOpen_opened by done. cbn [snd]. tauto.
  - rewrite didOpen_unopened by done. cbn [snd]. cbn zeta.
    destruct (fs_readFile w (history s) _) as [e | content]; cbn [client].
    + split; [tauto | intros [? | ?]; [done | discriminate]].
    + destruct (srv_notification w _ _ _) as [e |]; cbn [client openFiles].
      * split; [tauto | intros [? | ?]; [done | discriminate]].
      * split; [by right |]. intros _.
        apply elem_of_union_r. by apply elem_of_singleton.
Qed.

(** The same from any state: a handshake that fails keeps the set as it is,
    one that goes through is followed by the opening. *)
Lemma runQuery_opens (q : Query) (w : World) (s : State) :
  uriOf (client s) (queryFile q) ∈ openFiles (client (after (runQuery q) w s)) <->
  uriOf (client s) (queryFile q) ∈ openFiles (client s) \/
  announced w s (queryFile q) = true.
Proof.
  destruct (isInitialized (client s)) eqn:Hi;
    [by apply runQuery_opens_initialized |].
  pose proof (ensureInitialized_fresh w s Hi) as He.
  destruct (handshake w s) as [e | r] eqn:Hh.
  - destruct (initialize_failure w s e Hi Hh) as [evs Hf]. rewrite Hf in He.
    rewrite (runQuery_not_ensured q w s _ e He). cbn [client].
    unfold announced, reachesDidOpen. rewrite Hi, Hh.
    split; [tauto | intros [? | ?]; [done | discriminate]].
  - rewrite (initialize_success w s r Hi Hh) in He.
    rewrite (runQuery_ensured q w s _ He). fold (afterHandshake s).
    pose proof (runQuery_opens_initialized q w (afterHandshake s) eq_refl) as H.
    replace (announced w s (queryFile q))
      with (announced w (afterHandshake s) (queryFile q))
      by (unfold announced, reachesDidOpen; by rewrite Hi, Hh).
    exact H.
Qed.

(** C4, as amended: in every run of queries issued one after the other from
    start-up, the number of open-notifications delivered for a document is
    one when its URI is in the open-file set and zero when it is not, so a
    URI is a member only once its notification has been sent; the set only
    grows as the run goes on; and two further queries against one file leave
    exactly one delivered notification for it when it was open before, or
    when the file is read and announced during the first or during the second
    of them, and none otherwise (the handshake fails before the opening is
    reached, the read fails, or the server does not take the notification). *)
Theorem didOpen_once_per_member (w : World) (qs : list Query) (u : string) :
  let s := runQueries w qs initialState in
  countDidOpen u (history s) =
    (if decide (u ∈ openFiles (client s)) then 1%nat else 0%nat) /\
  (forall more : list Query,
     openFiles (client s) ⊆
     openFiles (client (runQueries w (qs ++ more) initialState))) /\
  (forall q1 q2 : Query,
     queryFile q2 = queryFile q1 ->
     uriOf (client s) (queryFile q1) = u ->
     let s1 := runQueries w (qs ++ [q1]) initialState in
     let s2 := runQueries w (qs ++ [q1; q2]) initialState in
     countDidOpen u (history s2) =
       if decide (u ∈ openFiles (client s)) then 1%nat
       else if announced w s (queryFile q1) || announced w s1 (queryFile q1)
            then 1%nat else 0%nat).
Proof.
  cbn zeta. split; [| split].
  - apply (later_inStep _ _ (later_runQueries w qs initialState)),
      inStep_initialState.
  - intros more. rewrite runQueries_app. apply later_open, later_runQueries.
  - intros q1 q2 Hq Hu.
    rewrite (later_inStep _ _ (later_runQueries w (qs ++ [q1; q2]) initialState)
               inStep_initialState u).
    rewrite !runQueries_app. set (s := runQueries w qs initialState) in *.
    cbn [runQueries fold_left].
    set (s1 := after (runQuery q1) w s).
    assert (Hroot : uriOf (client s1) (queryFile q2) = u).
    { rewrite Hq, <- Hu. unfold uriOf, s1.
      by rewrite (later_root _ _ (advances_runQuery q1 w s)). }
    pose proof (runQuery_opens q1 w s) as H1. rewrite Hu in H1. fold s1 in H1.
    pose proof (runQuery_opens q2 w s1) as H2. rewrite Hroot, Hq in H2.
    destruct (decide (u ∈ openFiles (client s))) as [Hin | Hnew].
    + rewrite decide_True; [done |]. apply H2. left. apply H1. by left.
    + destruct (announced w s (queryFile q1)) eqn:Ha1; cbn [orb].
      * rewrite decide_True; [done |]. apply H2. left. apply H1. by right.
      * destruct (announced w s1 (queryFile q1)) eqn:Ha2.
        -- rewrite decide_True; [done |]. apply H2. by right.
        -- rewrite decide_False; [done |]. intros Hin2.
           apply H2 in Hin2 as [Hin1 | ?]; [| discriminate].
           apply H1 in Hin1 as [? | ?]; [done | discriminate].
Qed.

End OpenOnce.

Lemma didOpen_once_per_member_witness :
  countDidOpen "file:///proj/a.ts"
    (history (runQueries (RT := Posix.runtime)
                (Examples.project None) Examples.twoQueries initialState)) = 1%nat.
Proof.
  pose proof (didOpen_once_per_member (RT := Posix.runtime)
                (Examples.project None) [] "file:///proj/a.ts") as (_ & _ & H).
  specialize (H (QDocumentSymbols "a.ts") (QDocumentSymbols "a.ts") eq_refl eq_refl).
  cbn zeta in H. rewrite decide_False in H by (cbn; set_solver).
  exact H.
Defined.

(** C4, as stated, fails: when the file cannot be read, two queries against
    it send no open-notification at all; each of them tries the read, logs
    the failure and sends its request. *)
Lemma didOpen_none_when_unreadable :
  let h := history (runQueries (RT := Posix.runtime)
                      Examples.noFile Examples.twoQueries initialState) in
  countDidOpen "file:///proj/a.ts" h = 0%nat /\
  h = [EvConsoleError "Initializing LSP connection..." None;
       EvConsoleError "Sending initialize request..." None;
       EvRequest "initialize" (InitializeParams "file:///proj");
       EvConsoleError "Initialize request successful." None;
       EvNotification "initialized" EmptyParams;
       EvReadFile "/proj/a.ts";
       failedToOpen "a.ts" (HostError "ENOENT: no such file or directory");
       EvRequest "textDocument/documentSymbol" (DocumentSymbolParams "file:///proj/a.ts");
       EvReadFile "/proj/a.ts";
       failedToOpen "a.ts" (HostError "ENOENT: no such file or directory");
       EvRequest "textDocument/documentSymbol" (DocumentSymbolParams "file:///proj/a.ts")].
Proof. split; reflexivity. Qed.

(** ** The outline search *)

Section Outline.

Lemma find_app {A} (p : A -> bool) (l1 l2 : list A) :
  List.find p (l1 ++ l2) =
  match List.find p l1 with Some x => Some x | None => List.find p l2 end.
Proof. induction l1 as [| a l1 IH]; cbn; [done |]. by destruct (p a). Qed.

(** findSymbol is a depth-first search: it returns the first node of the
    outline, a node before its children, that has the name. *)
Lemma findSymbolAt_find (nm : string) :
  forall sym, findSymbolAt nm sym = List.find (named nm) (nodes sym).
Proof.
  fix IH 1. intros [n r sr loc ch]. cbn. unfold named at 1. cbn.
  destruct (String.eqb n nm); [done |].
  destruct ch as [cs |]; [| done].
  revert cs. fix IHcs 1. intros [| c cs]; [done |].
  rewrite find_app, <- IH. destruct (findSymbolAt nm c); [done |]. apply IHcs.
Qed.

Lemma findSymbol_find (symbols : list Symbol) (nm : string) :
  findSymbol symbols nm = List.find (named nm) (outline symbols).
Proof.
  induction symbols as [| sym rest IH]; cbn; [done |].
  rewrite find_app, <- findSymbolAt_find. by destruct (findSymbolAt nm sym).
Qed.

Lemma findSymbol_none (symbols : list Symbol) (nm : string) :
  (forall sym, In sym (outline symbols) -> name sym <> nm) ->
  findSymbol symbols nm = None.
Proof.
  intros Hno. rewrite findSymbol_find.
  destruct (List.find _ _) as [sym |] eqn:Hf; [| done].
  apply List.find_some in Hf as [Hin Hn]. apply String.eqb_eq in Hn.
  by destruct (Hno sym Hin).
Qed.

End Outline.

(** ** The tool handlers *)

Section Tools.

Context `{RT : JsRuntime}.

(** C8: the outline is searched depth first, a node before its children,
    and the first node with the name wins; when the outline of the source
    file has no node named sourceFunction, check_function_call returns the
    text "Source function '...' not found in ...", naming the function, with
    the error flag unset; the dispatch returns normally. *)
Theorem missing_source_function_reported
    (fuel : nat) (args : JVal) (w : World) (s s1 : State)
    (sourceFile sourceFunction targetFile targetFunction : string)
    (symbols : list Symbol) :
  checkSchema args = inr (sourceFile, sourceFunction, targetFile, targetFunction) ->
  getDocumentSymbols sourceFile w s = (Returned (Some symbols), s1) ->
  (forall sym, In sym (outline symbols) -> name sym <> sourceFunction) ->
  (forall nm, findSymbol symbols nm = List.find (named nm) (outline symbols)) /\
  callTool fuel "check_function_call" args w s =
    (Returned (mkToolResult ("Source function '" ++ sourceFunction ++
                             "' not found in " ++ sourceFile) false), s1).
Proof.
  intros Hargs Hsyms Hno. split; [apply findSymbol_find |].
  unfold callTool. cbn [String.eqb Ascii.eqb Bool.eqb].
  unfold try_catch, handleCheckFunctionCall, bind, parse.
  rewrite Hargs. cbn. rewrite Hsyms. cbn.
  by rewrite (findSymbol_none _ _ Hno).
Qed.

(** C2, as amended: once both symbols are found and the target has a
    position, check_function_call answers "No references found for target
    function" exactly when the reference request returns null.  When the
    request returns a list the answer is another one; for the empty list
    (a target with no reference at all) it is "No direct call found from
    '...' to '...'." or, for a source symbol without a range, "Could not
    determine range of source symbol". *)
Theorem no_references_only_on_null
    (fuel : nat) (args : JVal) (w : World) (s s1 s2 s3 : State)
    (sourceFile sourceFunction targetFile targetFunction : string)
    (sourceSymbols targetSymbols : list Symbol) (sourceSym targetSym : Symbol)
    (pos : Position) (references : option (list Location)) :
  checkSchema args = inr (sourceFile, sourceFunction, targetFile, targetFunction) ->
  getDocumentSymbols sourceFile w s = (Returned (Some sourceSymbols), s1) ->
  findSymbol sourceSymbols sourceFunction = Some sourceSym ->
  getDocumentSymbols targetFile w s1 = (Returned (Some targetSymbols), s2) ->
  findSymbol targetSymbols targetFunction = Some targetSym ->
  targetPositionOf targetSym = Some pos ->
  getReferences targetFile (Number_of_Z (line pos)) (Number_of_Z (character pos)) w s2 =
    (Returned references, s3) ->
  exists result : ToolResult,
    callTool fuel "check_function_call" args w s = (Returned result, s3) /\
    isError result = false /\
    match references with
    | None => text result = noReferences
    | Some refs =>
        text result <> noReferences /\
        (refs = [] ->
         text result =
           match sourceRangeOf sourceSym with
           | Some _ => "No direct call found from '" ++ sourceFunction ++ "' to '" ++
                       targetFunction ++ "'."
           | None => "Could not determine range of source symbol"
           end)
    end.
Proof.
  intros Hargs Hs Hsf Ht Htf Hpos Hrefs.
  unfold callTool. cbn [String.eqb Ascii.eqb Bool.eqb].
  unfold try_catch, handleCheckFunctionCall, bind, parse.
  rewrite Hargs. cbn. rewrite Hs. cbn. rewrite Hsf, Ht. cbn.
  rewrite Htf, Hpos, Hrefs. cbn.
  destruct references as [refs |]; [| by eexists].
  destruct (sourceRangeOf sourceSym) as [r |]; cbn.
  - destruct (Z.of_nat (length (List.filter _ refs)) >? 0) eqn:Hlen; cbn;
      eexists; (split; [reflexivity |]); cbn; (split; [reflexivity |]);
      (split; [discriminate |]); intros ->; [discriminate Hlen | reflexivity].
  - eexists. split; [reflexivity |]. cbn. repeat split. discriminate.
Qed.

(** The schema of the position tools accepts exactly the well-typed
    arguments. *)
Lemma argsSchema_wellTyped (args : JVal) :
  if wellTyped args then
    exists (filePath : string) (ln ch : JsNumber), argsSchema args = inr (filePath, ln, ch)
  else
    exists issues : list ZodIssue, issues <> [] /\ argsSchema args = inl issues.
Proof.
  destruct args as [| | | | | | fields]; cbn;
    try (eexists; split; [| reflexivity]; discriminate).
  generalize (getProp fields "filePath") (getProp fields "line")
             (getProp fields "character").
  intros vf vl vc.
  destruct vf, vl, vc; cbn;
    repeat (match goal with |- context [isNaN ?n] => destruct (isNaN n) end; cbn);
    first [ by do 3 eexists | eexists; split; [| reflexivity]; discriminate ].
Qed.

(** C3, as amended: get_definition and get_references surface a validation
    error, before any effect, for arguments that are not well typed (no
    object, a field missing, a filePath that is no string, a line or
    character that is neither a string nor a number); on well-typed
    arguments, and every string is a well-typed line or character, the
    parse passes and the tool call leaves the state the client query
    leaves. *)
Theorem validation_before_query
    (fuel : nat) (toolName : string) (args : JVal) (w : World) (s : State) :
  toolName = "get_definition" \/ toolName = "get_references" ->
  if wellTyped args then
    exists (filePath : string) (ln ch : JsNumber),
      argsSchema args = inr (filePath, ln, ch) /\
      after (callTool fuel toolName args) w s =
      after (runQuery (positionQuery toolName filePath ln ch)) w s
  else
    exists issues : list ZodIssue,
      issues <> [] /\
      callTool fuel toolName args w s =
        (Returned (mkToolResult ("Error: " ++ ZodError_message issues) true), s).
Proof.
  intros Hname. pose proof (argsSchema_wellTyped args) as Hs.
  destruct (wellTyped args).
  - destruct Hs as (f & ln & ch & Hs). exists f, ln, ch. split; [exact Hs |].
    unfold after, callTool, positionQuery.
    destruct Hname as [-> | ->]; cbn [String.eqb Ascii.eqb Bool.eqb runQuery];
      unfold try_catch, handleGetDefinition, handleGetReferences, bind, parse;
      rewrite Hs; cbn.
    + destruct (getDefinition f ln ch w s) as [[r | e |] s'];
        try destruct r; reflexivity.
    + destruct (getReferences f ln ch w s) as [[r | e |] s']; reflexivity.
  - destruct Hs as (issues & Hne & Hs). exists issues. split; [exact Hne |].
    unfold callTool.
    destruct Hname as [-> | ->]; cbn [String.eqb Ascii.eqb Bool.eqb];
      unfold try_catch, handleGetDefinition, handleGetReferences, bind, parse;
      rewrite Hs; reflexivity.
Qed.

End Tools.

Lemma no_references_only_on_null_witness :
  exists result : ToolResult,
    callTool (RT := Posix.runtime) 0 "check_function_call"
      (Examples.checkArgs "main") (Examples.project None) initialState =
    (Returned result, Examples.afterReferences None) /\
    isError result = false /\
    text result = noReferences.
Proof.
  apply (no_references_only_on_null (RT := Posix.runtime) 0
           (Examples.checkArgs "main") (Examples.project None) initialState
           (Examples.afterSourceOutline None) (Examples.afterTargetOutline None)
           (Examples.afterReferences None) "a.ts" "main" "a.ts" "add"
           [Examples.mainSym; Examples.addSym] [Examples.mainSym; Examples.addSym]
           Examples.mainSym Examples.addSym (mkPosition 7 9) None);
    reflexivity.
Defined.

(** C2, as stated, fails: for a target without any reference (the server
    answers the empty list) the tool does not say "No references found for
    target function" but "No direct call found". *)
Lemma zero_references_reported_as_no_call :
  callTool (RT := Posix.runtime) 0 "check_function_call"
    (Examples.checkArgs "main") (Examples.project (Some [])) initialState =
  (Returned (mkToolResult "No direct call found from 'main' to 'add'." false),
   Examples.afterReferences (Some [])).
Proof. reflexivity. Qed.

Lemma validation_before_query_witness :
  exists issues : list ZodIssue,
    issues <> [] /\
    callTool (RT := Posix.runtime) 0 "get_definition" Examples.lineMissing
      (Examples.project None) initialState =
    (Returned (mkToolResult ("Error: " ++ Posix.zodMessage issues) true), initialState).
Proof.
  exact (validation_before_query (RT := Posix.runtime) 0 "get_definition"
           Examples.lineMissing (Examples.project None) initialState
           (or_introl eq_refl)).
Defined.

(** C3, as stated, fails: a line that is no number passes the validation
    (Number turns it into NaN), the definition request is sent with it, and
    the result carries no error flag. *)
Lemma non_numeric_line_is_queried :
  let r := callTool (RT := Posix.runtime) 0 "get_definition" Examples.lineNotNumeric
             (Examples.project None) initialState in
  fst r = Returned (mkToolResult "No definition found." false) /\
  last (history (snd r)) =
    Some (EvRequest "textDocument/definition"
            (TextDocumentPositionParams (RT := Posix.runtime) "file:///proj/a.ts"
               (Number_of_string "abc") (Number_of_string "0"))) /\
  isNaN (Number_of_string (JsRuntime := Posix.runtime) "abc") = true.
Proof.
  repeat split.
Qed.

Lemma missing_source_function_reported_witness :
  (forall nm, findSymbol [Examples.mainSym; Examples.addSym] nm =
              List.find (named nm) (outline [Examples.mainSym; Examples.addSym])) /\
  callTool (RT := Posix.runtime) 0 "check_function_call"
    (Examples.checkArgs "helper") (Examples.project None) initialState =
  (Returned (mkToolResult "Source function 'helper' not found in a.ts" false),
   Examples.afterSourceOutline None).
Proof.
  apply (missing_source_function_reported (RT := Posix.runtime) 0
           (Examples.checkArgs "helper") (Examples.project None) initialState
           (Examples.afterSourceOutline None) "a.ts" "helper" "a.ts" "add"
           [Examples.mainSym; Examples.addSym]).
  - reflexivity.
  - reflexivity.
  - intros sym [<- | [<- | []]]; discriminate.
Defined.

(** ** The search in a file *)

Section Strings.

Lemma index_empty (n : nat) (s : string) :
  (n <= String.length s)%nat -> String.index n EmptyString s <> None.
Proof.
  intros Hn Hi. apply String.index_correct4 in Hi. lia.
Qed.

(** The empty string is found wherever the search starts. *)
Lemma indexOf_empty (ln : string) (position : Z) :
  Js.indexOf ln EmptyString position <> -1.
Proof.
  unfold Js.indexOf.
  destruct (String.index _ _ _) as [i |] eqn:Hi; [lia |].
  apply index_empty in Hi; [done | lia].
Qed.

Lemma substring_chars (c : ascii) (s : string) :
  forall n m, In c (chars (String.substring n m s)) -> In c (chars s).
Proof.
  induction s as [| a s IH]; intros [| n] [| m]; cbn; try tauto.
  - intros [-> | Hin]; [by left | right; by apply (IH 0%nat m)].
  - intros Hin. right. by apply (IH n 0%nat).
  - intros Hin. right. by apply (IH n (S m)).
Qed.

(** Where a query is found, each of its code units is one of the line. *)
Lemma index_chars (n m : nat) (query ln : string) (c : ascii) :
  String.index n query ln = Some m -> In c (chars query) -> In c (chars ln).
Proof.
  intros Hi Hc. apply String.index_correct1 in Hi. rewrite <- Hi in Hc.
  by apply substring_chars in Hc.
Qed.

Lemma indexOf_absent (ln query : string) (c : ascii) (position : Z) :
  In c (chars query) -> ~ In c (chars ln) -> Js.indexOf ln query position = -1.
Proof.
  intros Hq Hl. unfold Js.indexOf.
  destruct (String.index _ _ _) as [i |] eqn:Hi; [| done].
  destruct Hl. by eapply index_chars.
Qed.

(** No piece of a split holds the separator. *)
Lemma split_no_separator (sep : ascii) (s piece : string) :
  In piece (Js.split sep s) -> ~ In sep (chars piece).
Proof.
  revert piece. induction s as [| a s IH]; cbn; intros piece.
  - intros [<- | []]. cbn. tauto.
  - destruct (Ascii.eqb_spec a sep) as [-> | Hne].
    + intros [<- | Hin]; [cbn; tauto | by apply IH].
    + destruct (Js.split sep s) as [| p ps] eqn:Hs.
      * intros [<- | []]. cbn. intros [? | []]. congruence.
      * intros [<- | Hin].
        -- cbn. intros [? | Hin]; [congruence |]. by apply (IH p); [left |].
        -- apply IH. by right.
Qed.

Lemma split_nonempty (sep : ascii) (s : string) : Js.split sep s <> [].
Proof.
  destruct s as [| a s]; cbn; [done |].
  destruct (Ascii.eqb a sep); [done |]. by destruct (Js.split sep s).
Qed.

Lemma substring_length_le (s : string) :
  forall n m, (String.length (String.substring n m s) <= String.length s - n)%nat.
Proof.
  induction s as [| a s IH]; intros [| n] [| m]; cbn; try lia.
  - specialize (IH 0%nat m). lia.
  - apply IH.
  - apply IH.
Qed.

Lemma index_ge (s : string) :
  forall (n : nat) (q : string) (m : nat), String.index n q s = Some m -> (n <= m)%nat.
Proof.
  induction s as [| a s IH]; intros [| n] q m; cbn; try lia; try discriminate.
  destruct (String.index n q s) as [m' |] eqn:Hi; [| discriminate].
  intros [= <-]. apply IH in Hi. lia.
Qed.

(** A query that is not empty is found before the end of the line. *)
Lemma index_lt (n m : nat) (q s : string) :
  q <> EmptyString -> String.index n q s = Some m -> (m < String.length s)%nat.
Proof.
  intros Hq Hi. apply String.index_correct1 in Hi.
  pose proof (substring_length_le s m (String.length q)) as Hl.
  rewrite Hi in Hl. destruct q; [done |]. cbn in Hl. lia.
Qed.

Lemma indexOf_nat (ln q : string) (k : nat) :
  Js.indexOf ln q (Z.of_nat k) =
  match String.index (Nat.min k (String.length ln)) q ln with
  | Some i => Z.of_nat i
  | None => -1
  end.
Proof.
  unfold Js.indexOf.
  replace (Z.to_nat _) with (Nat.min k (String.length ln)) by lia. reflexivity.
Qed.

Lemma filter_none {A} (f : A -> bool) (l : list A) :
  (forall x, In x l -> f x = false) -> List.filter f l = [].
Proof.
  induction l as [| a l IH]; cbn; [done |]. intros H.
  rewrite (H a) by (by left). apply IH. intros x Hx. apply H. by right.
Qed.

Lemma occurrencesFrom_none (ln q : string) (k : nat) :
  (forall p, (k <= p <= String.length ln)%nat -> occursAt ln q p = false) ->
  occurrencesFrom ln q k = [].
Proof.
  intros H. apply filter_none. intros p Hp. apply in_seq in Hp. apply H. lia.
Qed.

Lemma occurrencesFrom_found (ln q : string) (k m : nat) :
  (k <= m <= String.length ln)%nat ->
  (forall p, (k <= p < m)%nat -> occursAt ln q p = false) ->
  occursAt ln q m = true ->
  occurrencesFrom ln q k = m :: occurrencesFrom ln q (S m).
Proof.
  intros Hm Hbefore Hat. unfold occurrencesFrom.
  replace (S (String.length ln) - k)%nat
    with ((m - k) + S (String.length ln - m))%nat by lia.
  rewrite seq_app, List.filter_app.
  rewrite filter_none by (intros p Hp; apply in_seq in Hp; apply Hbefore; lia).
  replace (k + (m - k))%nat with m by lia. cbn [seq List.filter app].
  rewrite Hat. reflexivity.
Qed.

End Strings.

Section SearchInFile.

Context `{RT : JsRuntime}.

(** On the empty query the while loop does not end: whatever the bound on
    its iterations, the bound is reached. *)
Lemma searchWhile_empty_query (fuel : nat) (ln : string) (i : Z) :
  forall (index : Z) (matches : list Match),
    index <> -1 -> searchWhile fuel ln EmptyString i index matches = None.
Proof.
  induction fuel as [| fuel IH]; intros index matches Hindex; cbn.
  - by destruct (Z.eqb_spec index (-1)).
  - destruct (Z.eqb_spec index (-1)); [done |].
    apply IH, indexOf_empty.
Qed.

Lemma searchFor_empty_query (fuel : nat) (lines : list string) (i : Z)
    (matches : list Match) :
  lines <> [] -> searchFor fuel lines EmptyString i matches = None.
Proof.
  destruct lines as [| ln rest]; [done |]. intros _. cbn.
  by rewrite searchWhile_empty_query by apply indexOf_empty.
Qed.

Lemma handleSearchInFile_empty_query
    (fuel : nat) (w : World) (s : State) (filePath content : string) :
  fs_readFile w (history s) filePath = inr content ->
  callTool fuel "search_in_file"
    (JObj [("filePath", JStr filePath); ("query", JStr EmptyString)]) w s =
  (Unfinished, mkState (client s) (history s ++ [EvReadFile filePath])).
Proof.
  intros Hread. unfold callTool. cbn [String.eqb Ascii.eqb Bool.eqb].
  unfold try_catch, handleSearchInFile, bind, parse, readFile. cbn.
  rewrite Hread. cbn.
  by rewrite searchFor_empty_query by apply split_nonempty.
Qed.

(** A line in which a code unit of the query is missing yields no match. *)
Lemma searchFor_absent (fuel : nat) (query : string) (c : ascii) :
  In c (chars query) ->
  forall (lines : list string) (i : Z) (matches : list Match),
    (forall ln, In ln lines -> ~ In c (chars ln)) ->
    searchFor fuel lines query i matches = Some matches.
Proof.
  intros Hq. induction lines as [| ln rest IH]; intros i matches Hl; cbn; [done |].
  rewrite (indexOf_absent ln query c 0 Hq) by (apply Hl; by left).
  destruct fuel; cbn; apply IH; intros; apply Hl; by right.
Qed.

(** On a query that is not empty the while loop ends within as many
    iterations as the line has code units left, plus one, and adds one match
    per occurrence, overlapping ones included, in increasing order. *)
Lemma searchWhile_complete (ln query : string) (i : Z) :
  query <> EmptyString ->
  forall (n k fuel : nat) (matches : list Match),
    (S (String.length ln) - k <= n)%nat ->
    (n <= fuel)%nat ->
    searchWhile fuel ln query i (Js.indexOf ln query (Z.of_nat k)) matches =
    Some (matches ++
          map (fun j => mkMatch i (Z.of_nat j) (Js.trim ln))
              (occurrencesFrom ln query k))%list.
Proof.
  intros Hq. induction n as [| n IH]; intros k fuel matches Hn Hf;
    rewrite indexOf_nat;
    destruct (String.index _ query ln) as [m |] eqn:Hi.
  - pose proof (index_ge _ _ _ _ Hi). pose proof (index_lt _ _ _ _ Hq Hi). lia.
  - rewrite occurrencesFrom_none, app_nil_r; [by destruct fuel |].
    intros p Hp. lia.
  - pose proof (index_ge _ _ _ _ Hi) as Hge.
    pose proof (index_lt _ _ _ _ Hq Hi) as Hlt.
    replace (Nat.min k (String.length ln)) with k in * by lia.
    destruct fuel as [| fuel]; [lia |]. cbn.
    destruct (Z.eqb_spec (Z.of_nat m) (-1)); [lia |].
    replace (Z.of_nat m + 1) with (Z.of_nat (S m)) by lia.
    rewrite IH by lia.
    rewrite (occurrencesFrom_found ln query k m).
    + cbn [map]. by rewrite <- app_assoc.
    + lia.
    + intros p Hp. apply String.eqb_neq.
      apply (String.index_correct2 _ _ _ _ Hi); lia.
    + apply String.eqb_eq. by apply (String.index_correct1 k).
  - rewrite occurrencesFrom_none, app_nil_r; [by destruct fuel |].
    intros p Hp. apply String.eqb_neq.
    replace (Nat.min k (String.length ln)) with k in * by lia.
    apply (String.index_correct3 _ _ _ _ Hi Hq). lia.
Qed.

(** The search on a query that is not empty returns, given a bound above
    the length of every line, and reports every occurrence of the query in
    every line. *)
Theorem searchFor_reports_every_occurrence (fuel : nat) (query : string) :
  query <> EmptyString ->
  forall (lines : list string) (i : Z) (matches : list Match),
    (forall ln, In ln lines -> (String.length ln < fuel)%nat) ->
    searchFor fuel lines query i matches =
    Some (matches ++ expectedMatches lines query i)%list.
Proof.
  intros Hq. induction lines as [| ln rest IH]; intros i matches Hl; cbn.
  - by rewrite app_nil_r.
  - assert (Hlen : (String.length ln < fuel)%nat) by (apply Hl; by left).
    rewrite (searchWhile_complete ln query i Hq (S (String.length ln)) 0 fuel)
      by lia.
    rewrite IH by (intros; apply Hl; by right). by rewrite <- app_assoc.
Qed.

(** C10: a query that holds a newline has no match in any file: the content
    is split at the newlines before the search, so no line holds one. *)
Theorem search_multiline_query_no_match
    (fuel : nat) (args : JVal) (w : World) (s : State)
    (filePath query content : string) :
  searchSchema args = inr (filePath, query) ->
  In Js.LF (chars query) ->
  fs_readFile w (history s) filePath = inr content ->
  searchFor fuel (Js.split Js.LF content) query 0 [] = Some [] /\
  callTool fuel "search_in_file" args w s =
    (Returned (textResult
       ("Found 0 matches (coordinates are 0-based, ready for use with get_definition/get_references):"
        ++ nl ++ JSON_stringify_matches [])),
     mkState (client s) (history s ++ [EvReadFile filePath])).
Proof.
  intros Hargs Hq Hread.
  assert (Hs : searchFor fuel (Js.split Js.LF content) query 0 [] = Some []).
  { apply (searchFor_absent fuel query Js.LF Hq). intros ln.
    apply split_no_separator. }
  split; [exact Hs |].
  unfold callTool. cbn [String.eqb Ascii.eqb Bool.eqb].
  unfold try_catch, handleSearchInFile, bind, parse, readFile.
  rewrite Hargs. cbn. rewrite Hread. cbn. by rewrite Hs.
Qed.

End SearchInFile.

Lemma search_multiline_query_no_match_witness :
  searchFor 0 (Js.split Js.LF "function main() {}") ("{" ++ nl ++ "}") 0 [] = Some [] /\
  callTool (RT := Posix.runtime) 0 "search_in_file" Examples.twoLineQuery
    (Examples.project None) initialState =
  (Returned (textResult
     ("Found 0 matches (coordinates are 0-based, ready for use with get_definition/get_references):"
      ++ nl ++ "[]")),
   mkState (client (initialState (RT := Posix.runtime))) [EvReadFile "a.ts"]).
Proof.
  apply (search_multiline_query_no_match (RT := Posix.runtime) 0
           Examples.twoLineQuery (Examples.project None) initialState
           "a.ts" ("{" ++ nl ++ "}") "function main() {}").
  - reflexivity.
  - right. left. reflexivity.
  - reflexivity.
Defined.

(** The overlap example: the line aaa holds the query aa at 0 and at 1. *)
Lemma search_overlap_example :
  searchFor 4 ["aaa"] "aa" 0 [] = Some [mkMatch 0 0 "aaa"; mkMatch 0 1 "aaa"].
Proof. reflexivity. Qed.

(** C6 at the empty query: on a file that can be read, search_in_file
    returns no result, however many iterations its loop is given. *)
Theorem search_empty_query_never_returns (fuel : nat) :
  callTool (RT := Posix.runtime) fuel "search_in_file" Examples.emptyQuery
    (Examples.project None) initialState =
  (Unfinished, mkState (client (initialState (RT := Posix.runtime))) [EvReadFile "a.ts"]).
Proof.
  apply (handleSearchInFile_empty_query (RT := Posix.runtime) fuel
           (Examples.project None) initialState "a.ts" "function main() {}").
  reflexivity.
Qed.

(** * Further properties of the code *)

(** ** Range containment, continued *)

Section MoreContainment.

Context `{RT : JsRuntime}.

Lemma position_le_cases (p q : Position) :
  position_le p q = true <->
  line p < line q \/ (line p = line q /\ character p <= character q).
Proof.
  unfold position_le.
  destruct (Z.ltb_spec (line p) (line q)), (Z.eqb_spec (line p) (line q)),
    (Z.leb_spec (character p) (character q)); cbn; split; intros;
    try discriminate; try reflexivity; lia.
Qed.

(** X1: a location of the file is contained in its own range, as soon as
    its start line is not after its end line. *)
Theorem isLocationInRange_own_range (loc : Location) (f : string) :
  samePath (uri loc) f ->
  line (start (range loc)) <= line (end_ (range loc)) ->
  isLocationInRange loc (range loc) f = true.
Proof.
  intros Hp Hl. apply isLocationInRange_true. intuition lia.
Qed.

(** X2: containment is monotone in the range: a location contained in a
    range is contained in every range that starts no later and ends no
    earlier, so a reference inside a nested function also counts for each
    function around it. *)
Theorem isLocationInRange_widen (loc : Location) (r r' : Range) (f : string) :
  isLocationInRange loc r f = true ->
  position_le (start r') (start r) = true ->
  position_le (end_ r) (end_ r') = true ->
  isLocationInRange loc r' f = true.
Proof.
  rewrite !isLocationInRange_true, !position_le_cases.
  intros (Hp & Hl & Hs & He) Hstart Hend. intuition lia.
Qed.

(** X3: a location in another file is never contained, wherever it is. *)
Theorem isLocationInRange_other_file (loc : Location) (r : Range) (f : string) :
  ~ samePath (uri loc) f -> isLocationInRange loc r f = false.
Proof.
  intros Hp. apply not_true_is_false. rewrite isLocationInRange_true. tauto.
Qed.

End MoreContainment.

Lemma isLocationInRange_own_range_witness :
  isLocationInRange (RT := Posix.runtime) Examples.tokenOnLastLine
    (range Examples.tokenOnLastLine) "a.ts" = true.
Proof.
  apply (isLocationInRange_own_range (RT := Posix.runtime)
           Examples.tokenOnLastLine "a.ts").
  - reflexivity.
  - cbn. lia.
Defined.

Lemma isLocationInRange_widen_witness :
  isLocationInRange (RT := Posix.runtime) MoreExamples.callInMain Examples.body "a.ts" = true.
Proof.
  apply (isLocationInRange_widen (RT := Posix.runtime) MoreExamples.callInMain
           (mkRange (mkPosition 2 0) (mkPosition 3 0)) Examples.body "a.ts");
    reflexivity.
Defined.

Lemma isLocationInRange_other_file_witness :
  isLocationInRange (RT := Posix.runtime) MoreExamples.callInMain Examples.body "b.ts" = false.
Proof.
  apply (isLocationInRange_other_file (RT := Posix.runtime)
           MoreExamples.callInMain Examples.body "b.ts").
  unfold samePath. cbn. discriminate.
Defined.

(** ** The outline search, continued *)

Section MoreOutline.

(** Induction on a symbol tree, with the property known of every child. *)
Lemma Symbol_tree_ind (P : Symbol -> Prop) :
  (forall sym, (forall cs, children sym = Some cs -> Forall P cs) -> P sym) ->
  forall sym, P sym.
Proof.
  intros H. fix IH 1. intros [n r sr loc ch]. apply H. cbn.
  destruct ch as [cs |]; [| discriminate].
  assert (HF : Forall P cs).
  { induction cs as [| c cs IHcs]; constructor; [apply IH | exact IHcs]. }
  by intros cs' [= <-].
Qed.

Lemma nodes_unfold (sym : Symbol) :
  nodes sym =
  sym :: match children sym with
         | Some cs => flat_map nodes cs
         | None => []
         end.
Proof.
  by destruct sym as [n r sr loc [cs |]].
Qed.

Lemma outline_flat_map (symbols : list Symbol) :
  outline symbols = flat_map nodes symbols.
Proof. induction symbols as [| sym rest IH]; cbn; [done |]. by rewrite IH. Qed.

Lemma nodes_self (sym : Symbol) : In sym (nodes sym).
Proof. rewrite nodes_unfold. by left. Qed.

(** The nodes below a node of an outline are nodes of the outline. *)
Lemma nodes_nodeOf (symbols : list Symbol) :
  forall t, nodeOf symbols t -> forall x, In x (nodes t) -> nodeOf symbols x.
Proof.
  intros t. induction t as [t IH] using Symbol_tree_ind. intros Ht x.
  rewrite nodes_unfold. intros [<- | Hx]; [done |].
  destruct (children t) as [cs |] eqn:Hch; [| done].
  apply in_flat_map in Hx as (c & Hc & Hx).
  specialize (IH cs eq_refl). rewrite List.Forall_forall in IH.
  apply (IH c Hc); [| done]. by apply (nodeOf_child symbols t cs).
Qed.

(** The children of a node listed below a symbol are listed below it. *)
Lemma nodes_child :
  forall t p cs c,
    In p (nodes t) -> children p = Some cs -> In c cs -> In c (nodes t).
Proof.
  intros t. induction t as [t IH] using Symbol_tree_ind. intros p cs c.
  rewrite !(nodes_unfold t). intros [<- | Hp] Hch Hc.
  - right. rewrite Hch. apply in_flat_map. exists c. split; [done |].
    apply nodes_self.
  - right. destruct (children t) as [ts |] eqn:Ht; [| done].
    apply in_flat_map in Hp as (t' & Ht' & Hp).
    apply in_flat_map. exists t'. split; [done |].
    specialize (IH ts eq_refl). rewrite List.Forall_forall in IH.
    by apply (IH t' Ht' p cs c).
Qed.

(** The list the search walks holds exactly the nodes of the outline. *)
Lemma outline_nodeOf (symbols : list Symbol) (sym : Symbol) :
  In sym (outline symbols) <-> nodeOf symbols sym.
Proof.
  rewrite outline_flat_map, in_flat_map. split.
  - intros (t & Ht & Hs). apply (nodes_nodeOf symbols t); [| done].
    by apply nodeOf_top.
  - induction 1 as [sym Hin | parent cs sym Hp (t & Ht & Hpt) Hch Hin].
    + exists sym. split; [done | apply nodes_self].
    + exists t. split; [done |]. by apply (nodes_child t parent cs sym).
Qed.

(** X4: findSymbol is sound and complete on the whole tree: what it returns
    is a node of the outline with the name asked for, and it returns null
    exactly when no node, at any depth, has that name. *)
Theorem findSymbol_sound_complete (symbols : list Symbol) (nm : string) :
  (forall sym, findSymbol symbols nm = Some sym ->
               nodeOf symbols sym /\ name sym = nm) /\
  (findSymbol symbols nm = None <->
   forall sym, nodeOf symbols sym -> name sym <> nm).
Proof.
  rewrite findSymbol_find. split.
  - intros sym Hf. apply List.find_some in Hf as [Hin Hn].
    split; [by apply outline_nodeOf | by apply String.eqb_eq].
  - split.
    + intros Hf sym Hs Hn. apply outline_nodeOf in Hs.
      pose proof (List.find_none _ _ Hf sym Hs) as Hfalse.
      unfold named in Hfalse. apply String.eqb_neq in Hfalse. done.
    + intros Hno. destruct (List.find _ _) as [sym |] eqn:Hf; [| done].
      apply List.find_some in Hf as [Hin Hn]. apply String.eqb_eq in Hn.
      apply outline_nodeOf in Hin. by destruct (Hno sym Hin).
Qed.

(** The search goes through the top-level symbols from left to right,
    each with all its descendants before the next: what is found in a first
    part of the outline hides the rest. *)
Theorem findSymbol_app (symbols1 symbols2 : list Symbol) (nm : string) :
  findSymbol (symbols1 ++ symbols2) nm =
  match findSymbol symbols1 nm with
  | Some sym => Some sym
  | None => findSymbol symbols2 nm
  end.
Proof.
  induction symbols1 as [| sym rest IH]; cbn; [done |].
  by destruct (findSymbolAt nm sym).
Qed.

End MoreOutline.

(** ** Paths, URIs and language ids *)

Section MoreStrings.

Context `{RT : JsRuntime}.

Lemma length_append (s t : string) :
  String.length (s ++ t) = (String.length s + String.length t)%nat.
Proof. induction s as [| a s IH]; simpl; [done |]. by f_equal. Qed.

Lemma substring_full (s : string) : String.substring 0 (String.length s) s = s.
Proof. induction s as [| a s IH]; simpl; [done |]. by f_equal. Qed.

Lemma substring_append_skip (b t : string) (k m : nat) :
  String.substring (String.length b + k) m (b ++ t) = String.substring k m t.
Proof. induction b as [| a b IH]; simpl; [done |]. apply IH. Qed.

(** Whether a string ends with a suffix is decided by its last code units,
    as many as the suffix has. *)
Lemma endsWith_append (b t suf : string) :
  (String.length suf <= String.length t)%nat ->
  Js.endsWith (b ++ t) suf = Js.endsWith t suf.
Proof.
  intros Hlen. unfold Js.endsWith. rewrite length_append.
  replace (String.length b + String.length t - String.length suf)%nat
    with (String.length b + (String.length t - String.length suf))%nat by lia.
  rewrite substring_append_skip.
  destruct (Nat.leb_spec (String.length suf) (String.length t)); [| lia].
  destruct (Nat.leb_spec (String.length suf) (String.length b + String.length t));
    [done | lia].
Qed.

(** X5: the language id announced for a document is read off the end of
    its path, matched exactly, whatever comes before: .ts, .js and .py give
    typescript, javascript and python; .tsx, .jsx and .TS are announced as
    plaintext. *)
Theorem getLanguageId_by_extension (base : string) :
  getLanguageId (base ++ ".ts") = "typescript" /\
  getLanguageId (base ++ ".js") = "javascript" /\
  getLanguageId (base ++ ".py") = "python" /\
  getLanguageId (base ++ ".tsx") = "plaintext" /\
  getLanguageId (base ++ ".jsx") = "plaintext" /\
  getLanguageId (base ++ ".TS") = "plaintext".
Proof.
  unfold getLanguageId.
  rewrite !endsWith_append by (cbn; lia). repeat split.
Qed.

Lemma prefix_append (pat p : string) : String.prefix pat (pat ++ p) = true.
Proof.
  induction pat as [| a pat IH]; simpl; [by destruct p |].
  by destruct (ascii_dec a a).
Qed.

Lemma index_prefix (pat s : string) :
  String.prefix pat s = true -> String.index 0 pat s = Some 0%nat.
Proof.
  destruct s as [| b s]; simpl.
  - by destruct pat.
  - by intros ->.
Qed.

Lemma substring_nothing (s : string) (n : nat) : String.substring n 0 s = EmptyString.
Proof. revert n. induction s as [| a s IH]; intros [| n]; simpl; auto. Qed.

Lemma startsWith_append (pat p : string) : Js.startsWith (pat ++ p) pat = true.
Proof. apply prefix_append. Qed.

Lemma slice_prefix (pat p : string) : Js.slice (pat ++ p) (String.length pat) = p.
Proof.
  unfold Js.slice. rewrite length_append.
  replace (String.length pat + String.length p - String.length pat)%nat
    with (String.length p) by lia.
  rewrite <- (Nat.add_0_r (String.length pat)) at 1.
  rewrite substring_append_skip. apply substring_full.
Qed.

(** Replacing a prefix puts the replacement before what follows it. *)
Lemma replace_prefix (p : string) :
  Js.replace ("file://" ++ p) "file://" EmptyString = p.
Proof.
  unfold Js.replace.
  rewrite (index_prefix "file://" ("file://" ++ p)) by apply prefix_append.
  rewrite substring_nothing, length_append.
  replace (String.length "file://" + String.length p - (0 + String.length "file://"))%nat
    with (String.length p) by lia.
  change (0 + String.length "file://")%nat with (String.length "file://" + 0)%nat.
  rewrite substring_append_skip. simpl. apply substring_full.
Qed.

(** X6: the URI the client builds for a path, the scheme put before the
    path, is taken apart again by the containment test and by the formatting
    of a definition: both get the path back. *)
Theorem file_uri_round_trip (p : string) (r : Range) (f : string) :
  Js.replace ("file://" ++ p) "file://" EmptyString = p /\
  (samePath ("file://" ++ p) f <-> path_resolve [p] = path_resolve [PROJECT_ROOT; f]) /\
  formatLocation (mkLocation ("file://" ++ p) r) =
    "File: " ++ p ++ nl ++ "Line: " ++ pretty (line (start r)) ++
    ", Character: " ++ pretty (character (start r)).
Proof.
  assert (Hr : Js.replace ("file://" ++ p) "file://" EmptyString = p)
    by apply replace_prefix.
  split; [exact Hr |]. split.
  - unfold samePath. by rewrite Hr.
  - unfold formatLocation. cbn [uri range].
    rewrite startsWith_append.
    change (Js.slice ("file://" ++ p) 7)
      with (Js.slice ("file://" ++ p) (String.length "file://")).
    by rewrite slice_prefix.
Qed.

Lemma join_split (content : string) : join nl (Js.split Js.LF content) = content.
Proof.
  induction content as [| a s IH]; [done |]. cbn [Js.split].
  destruct (Js.split Js.LF s) as [| piece pieces] eqn:Hs;
    [by destruct (split_nonempty Js.LF s) |].
  destruct (Ascii.eqb_spec a Js.LF) as [-> | Hne].
  - change (join nl (EmptyString :: piece :: pieces))
      with (nl ++ join nl (piece :: pieces)).
    by rewrite IH.
  - destruct pieces as [| p2 rest].
    + cbn in *. by rewrite IH.
    + change (join nl (String a piece :: p2 :: rest))
        with (String a (piece ++ nl ++ join nl (p2 :: rest))).
      change (join nl (piece :: p2 :: rest))
        with (piece ++ nl ++ join nl (p2 :: rest)) in IH.
      by rewrite IH.
Qed.

(** Splitting a content at its newlines loses nothing: the lines joined
    with newlines are the content again. *)
Theorem split_join_round_trip (content : string) :
  join nl (Js.split Js.LF content) = content.
Proof. apply join_split. Qed.

End MoreStrings.

(** ** The client, continued *)

Section MoreClient.

Context `{RT : JsRuntime}.

(** X7: on an initialized client, a query against a document that is
    already in the open-file set costs one request and nothing else: no
    handshake, no file read, no open-notification; the client is as
    before. *)
Theorem query_on_open_document (w : World) (s : State) (q : Query) :
  isInitialized (client s) = true ->
  uriOf (client s) (queryFile q) ∈ openFiles (client s) ->
  after (runQuery q) w s =
    mkState (client s)
            (history s ++ [queryRequest q (uriOf (client s) (queryFile q))]).
Proof.
  intros Hi Hopen. rewrite runQuery_initialized by done.
  unfold after. by rewrite didOpen_opened.
Qed.

(** X8: the first query against a document reads the file and announces
    it to the server, with the content read, the language id of the path
    and version 1, before the request is sent; the URI is then in the
    open-file set. *)
Theorem first_query_announces_content
    (w : World) (s : State) (q : Query) (content : string) :
  let f := queryFile q in
  let full := path_resolve [rootPath (client s); f] in
  let u := uriOf (client s) f in
  let params := DidOpenParams u (getLanguageId f) 1 content in
  isInitialized (client s) = true ->
  u ∉ openFiles (client s) ->
  fs_readFile w (history s) full = inr content ->
  srv_notification w (history s ++ [EvReadFile full]) "textDocument/didOpen" params = None ->
  after (runQuery q) w s =
    mkState (mkLspClient (rootPath (client s)) true (openFiles (client s) ∪ {[u]}))
            (history s ++ [EvReadFile full;
                           EvNotification "textDocument/didOpen" params;
                           queryRequest q u]).
Proof.
  intros f full u params Hi Hnew Hread Hsend.
  rewrite runQuery_initialized by done. fold f. unfold after.
  rewrite didOpen_unopened by done. cbn zeta. fold full. rewrite Hread.
  fold u. fold params. rewrite Hsend. cbn. flat. by rewrite Hi.
Qed.

(** The client's query on an open document is the bare request. *)
Lemma query_opened {A} (oracle : World -> list Event -> Params -> Exn + A)
    (method : string) (mk : string -> Params) (f : string) (w : World) (s : State) :
  isInitialized (client s) = true ->
  uriOf (client s) f ∈ openFiles (client s) ->
  bind ensureInitialized (fun _ =>
    bind (didOpen f) (fun _ =>
      bind getClient (fun c =>
        sendRequest oracle method (mk ("file://" ++ path_resolve [rootPath c; f]))))) w s =
  sendRequest oracle method (mk (uriOf (client s) f)) w s.
Proof.
  intros Hi Hopen. unfold bind at 1. rewrite ensureInitialized_done by done.
  unfold bind at 1. by rewrite didOpen_opened.
Qed.

(** X9: on an open document the client hands back what the server
    answers, list or null, and throws what the server rejects the request
    with; it retries nothing. *)
Theorem query_answer_is_the_servers
    (w : World) (s : State) (f : string) (ln ch : JsNumber) :
  isInitialized (client s) = true ->
  uriOf (client s) f ∈ openFiles (client s) ->
  let u := uriOf (client s) f in
  let sent (method : string) (params : Params) :=
    mkState (client s) (history s ++ [EvRequest method params]) in
  getDefinition f ln ch w s =
    (match srv_definition w (history s) (TextDocumentPositionParams u ln ch) with
     | inl e => Thrown e
     | inr r => Returned r
     end, sent "textDocument/definition" (TextDocumentPositionParams u ln ch)) /\
  getReferences f ln ch w s =
    (match srv_references w (history s) (ReferenceParams u ln ch true) with
     | inl e => Thrown e
     | inr r => Returned r
     end, sent "textDocument/references" (ReferenceParams u ln ch true)) /\
  getHover f ln ch w s =
    (match srv_hover w (history s) (TextDocumentPositionParams u ln ch) with
     | inl e => Thrown e
     | inr r => Returned r
     end, sent "textDocument/hover" (TextDocumentPositionParams u ln ch)) /\
  getDocumentSymbols f w s =
    (match srv_documentSymbol w (history s) (DocumentSymbolParams u) with
     | inl e => Thrown e
     | inr r => Returned r
     end, sent "textDocument/documentSymbol" (DocumentSymbolParams u)).
Proof.
  intros Hi Hopen u sent.
  unfold getDefinition, getReferences, getHover, getDocumentSymbols.
  rewrite (query_opened srv_definition _ (fun d => TextDocumentPositionParams d ln ch))
    by done.
  rewrite (query_opened srv_references _ (fun d => ReferenceParams d ln ch true))
    by done.
  rewrite (query_opened srv_hover _ (fun d => TextDocumentPositionParams d ln ch))
    by done.
  rewrite (query_opened srv_documentSymbol _ DocumentSymbolParams) by done.
  unfold sendRequest, sent. fold u.
  repeat split;
    match goal with |- context [match ?o with inl _ => _ | inr _ => _ end] =>
      by destruct o end.
Qed.

End MoreClient.

Lemma query_on_open_document_witness :
  let q := QReferences (RT := Posix.runtime) "a.ts" (Some 0) (Some 6) in
  after (runQuery q) MoreExamples.oneDefinition MoreExamples.opened =
  mkState (client MoreExamples.opened)
          (history MoreExamples.opened ++
           [queryRequest q "file:///proj/a.ts"]).
Proof.
  intros q.
  apply (query_on_open_document (RT := Posix.runtime)
           MoreExamples.oneDefinition MoreExamples.opened q).
  - reflexivity.
  - vm_compute. reflexivity.
Defined.

Lemma first_query_announces_content_witness :
  let q := QDocumentSymbols (RT := Posix.runtime) "a.ts" in
  after (runQuery q) (Examples.project None) Examples.started =
  mkState (mkLspClient "/proj" true (∅ ∪ {["file:///proj/a.ts"]}))
          (history Examples.started ++
           [EvReadFile "/proj/a.ts";
            EvNotification "textDocument/didOpen"
              (DidOpenParams "file:///proj/a.ts" "typescript" 1 "function main() {}");
            queryRequest q "file:///proj/a.ts"]).
Proof.
  intros q.
  apply (first_query_announces_content (RT := Posix.runtime)
           (Examples.project None) Examples.started q "function main() {}").
  - reflexivity.
  - vm_compute. intros H. discriminate H.
  - reflexivity.
  - reflexivity.
Defined.

Lemma query_answer_is_the_servers_witness :
  let ln : JsNumber (JsRuntime := Posix.runtime) := Some 0 in
  let ch : JsNumber (JsRuntime := Posix.runtime) := Some 6 in
  getReferences (RT := Posix.runtime) "a.ts" ln ch
    MoreExamples.oneDefinition MoreExamples.opened =
  (Thrown (HostError "Request failed."),
   mkState (client MoreExamples.opened)
     (history MoreExamples.opened ++
      [EvRequest "textDocument/references"
         (ReferenceParams "file:///proj/a.ts" ln ch true)])).
Proof.
  intros ln ch.
  apply (query_answer_is_the_servers (RT := Posix.runtime)
           MoreExamples.oneDefinition MoreExamples.opened "a.ts" ln ch).
  - reflexivity.
  - vm_compute. reflexivity.
Defined.

(** ** The tool handlers, continued *)

Section MoreTools.

Context `{RT : JsRuntime}.

Lemma z_string_cases (path : list string) (v : JVal) :
  (exists str, v = JStr str /\ z_string path v = inr str) \/
  (exists i, isString v = false /\ z_string path v = inl [i]).
Proof. destruct v; cbn; eauto. Qed.

(** A schema without issues has parsed its arguments. *)
Lemma argsSchema_no_issues (args : JVal) :
  issues_of (argsSchema args) = [] -> exists v, argsSchema args = inr v.
Proof.
  pose proof (argsSchema_wellTyped args) as H.
  destruct (wellTyped args).
  - destruct H as (f & l & c & ->). by eexists.
  - destruct H as (issues & Hne & ->). cbn. by intros ->.
Qed.

Lemma searchSchema_no_issues (args : JVal) :
  issues_of (searchSchema args) = [] -> exists v, searchSchema args = inr v.
Proof.
  destruct args as [| | | | | | fields]; try discriminate. cbn.
  destruct (z_string_cases ["filePath"] (getProp fields "filePath"))
    as [(? & _ & ->) | (? & _ & ->)],
    (z_string_cases ["query"] (getProp fields "query"))
    as [(? & _ & ->) | (? & _ & ->)]; cbn; try discriminate; by eexists.
Qed.

Lemma checkSchema_no_issues (args : JVal) :
  issues_of (checkSchema args) = [] -> exists v, checkSchema args = inr v.
Proof.
  destruct args as [| | | | | | fields]; try discriminate. cbn.
  destruct (z_string_cases ["sourceFile"] (getProp fields "sourceFile"))
    as [(? & _ & ->) | (? & _ & ->)],
    (z_string_cases ["sourceFunction"] (getProp fields "sourceFunction"))
    as [(? & _ & ->) | (? & _ & ->)],
    (z_string_cases ["targetFile"] (getProp fields "targetFile"))
    as [(? & _ & ->) | (? & _ & ->)],
    (z_string_cases ["targetFunction"] (getProp fields "targetFunction"))
    as [(? & _ & ->) | (? & _ & ->)]; cbn; try discriminate; by eexists.
Qed.

Lemma issues_of_inl {A} (r : list ZodIssue + A) (i : ZodIssue) (rest : list ZodIssue) :
  issues_of r = i :: rest -> r = inl (i :: rest).
Proof. destruct r; cbn; [by intros -> | discriminate]. Qed.

(** X10: a name that is not in the list of tools is answered with the
    method-not-found error, flagged, and nothing is done for it. *)
Theorem unknown_tool_rejected
    (fuel : nat) (toolName : string) (args : JVal) (w : World) (s : State) :
  ~ In toolName (map tool_name listTools) ->
  callTool fuel toolName args w s =
    (Returned (mkToolResult
       ("Error: " ++ McpError_message MethodNotFound ("Unknown tool: " ++ toolName)) true),
     s).
Proof.
  intros Hno. unfold callTool.
  destruct (String.eqb_spec toolName "get_definition") as [-> |];
    [destruct Hno; cbn; tauto |].
  destruct (String.eqb_spec toolName "get_references") as [-> |];
    [destruct Hno; cbn; tauto |].
  destruct (String.eqb_spec toolName "search_in_file") as [-> |];
    [destruct Hno; cbn; tauto |].
  destruct (String.eqb_spec toolName "check_function_call") as [-> |];
    [destruct Hno; cbn; tauto |].
  reflexivity.
Qed.

(** X11: the listed input schemas and the schemas the handlers parse with
    agree on what is required: for every listed tool, arguments that give a
    string for each required property pass, and arguments that lack one of
    them do not. *)
Theorem listed_schema_matches_handler (t : Tool) (fields : list (string * JVal)) :
  In t listTools ->
  ((forall k, In k (tool_required t) -> isString (getProp fields k) = true) ->
   schemaIssues (tool_name t) (JObj fields) = Some []) /\
  (forall k, In k (tool_required t) -> getProp fields k = JUndefined ->
   exists i rest, schemaIssues (tool_name t) (JObj fields) = Some (i :: rest)).
Proof.
  intros Ht. cbn in Ht.
  destruct Ht as [<- | [<- | [<- | [<- | []]]]]; cbn [tool_name tool_required];
    unfold schemaIssues; cbn [String.eqb Ascii.eqb Bool.eqb orb];
    unfold argsSchema, searchSchema, checkSchema, z_string_or_number_Number.
  - split.
    + intros H.
      destruct (z_string_cases ["filePath"] (getProp fields "filePath"))
        as [(? & _ & ->) | (? & Hf & _)];
        [| rewrite H in Hf by (cbn; tauto); discriminate].
      pose proof (H "line" ltac:(cbn; tauto)) as Hl.
      pose proof (H "character" ltac:(cbn; tauto)) as Hc.
      destruct (getProp fields "line"); try discriminate Hl.
      by destruct (getProp fields "character"); try discriminate Hc.
    + intros k [<- | [<- | [<- | []]]] ->; cbn;
        repeat match goal with
               | |- context [z_string ?p ?v] =>
                   destruct (z_string_cases p v) as [(? & _ & ->) | (? & _ & ->)]; cbn
               | |- context [match getProp ?f ?k with _ => _ end] =>
                   destruct (getProp f k); cbn
               | |- context [isNaN ?n] => destruct (isNaN n); cbn
               end; do 2 eexists; reflexivity.
  - split.
    + intros H.
      destruct (z_string_cases ["filePath"] (getProp fields "filePath"))
        as [(? & _ & ->) | (? & Hf & _)];
        [| rewrite H in Hf by (cbn; tauto); discriminate].
      pose proof (H "line" ltac:(cbn; tauto)) as Hl.
      pose proof (H "character" ltac:(cbn; tauto)) as Hc.
      destruct (getProp fields "line"); try discriminate Hl.
      by destruct (getProp fields "character"); try discriminate Hc.
    + intros k [<- | [<- | [<- | []]]] ->; cbn;
        repeat match goal with
               | |- context [z_string ?p ?v] =>
                   destruct (z_string_cases p v) as [(? & _ & ->) | (? & _ & ->)]; cbn
               | |- context [match getProp ?f ?k with _ => _ end] =>
                   destruct (getProp f k); cbn
               | |- context [isNaN ?n] => destruct (isNaN n); cbn
               end; do 2 eexists; reflexivity.
  - split.
    + intros H.
      destruct (z_string_cases ["filePath"] (getProp fields "filePath"))
        as [(? & _ & ->) | (? & Hf & _)];
        [| rewrite H in Hf by (cbn; tauto); discriminate].
      destruct (z_string_cases ["query"] (getProp fields "query"))
        as [(? & _ & ->) | (? & Hf & _)];
        [| rewrite H in Hf by (cbn; tauto); discriminate].
      reflexivity.
    + intros k [<- | [<- | []]] ->; cbn;
        repeat match goal with
               | |- context [z_string ?p ?v] =>
                   destruct (z_string_cases p v) as [(? & _ & ->) | (? & _ & ->)]; cbn
               end; do 2 eexists; reflexivity.
  - split.
    + intros H.
      destruct (z_string_cases ["sourceFile"] (getProp fields "sourceFile"))
        as [(? & _ & ->) | (? & Hf & _)];
        [| rewrite H in Hf by (cbn; tauto); discriminate].
      destruct (z_string_cases ["sourceFunction"] (getProp fields "sourceFunction"))
        as [(? & _ & ->) | (? & Hf & _)];
        [| rewrite H in Hf by (cbn; tauto); discriminate].
      destruct (z_string_cases ["targetFile"] (getProp fields "targetFile"))
        as [(? & _ & ->) | (? & Hf & _)];
        [| rewrite H in Hf by (cbn; tauto); discriminate].
      destruct (z_string_cases ["targetFunction"] (getProp fields "targetFunction"))
        as [(? & _ & ->) | (? & Hf & _)];
        [| rewrite H in Hf by (cbn; tauto); discriminate].
      reflexivity.
    + intros k [<- | [<- | [<- | [<- | []]]]] ->; cbn;
        repeat match goal with
               | |- context [z_string ?p ?v] =>
                   destruct (z_string_cases p v) as [(? & _ & ->) | (? & _ & ->)]; cbn
               end; do 2 eexists; reflexivity.
Qed.

(** X12: whatever the tool, arguments its schema finds an issue in are
    answered with the validation error, flagged, before anything is done: no
    log entry, no file read, no message to the server. *)
Theorem validation_error_before_any_effect
    (fuel : nat) (toolName : string) (args : JVal) (w : World) (s : State)
    (i : ZodIssue) (rest : list ZodIssue) :
  schemaIssues toolName args = Some (i :: rest) ->
  callTool fuel toolName args w s =
    (Returned (mkToolResult ("Error: " ++ ZodError_message (i :: rest)) true), s).
Proof.
  unfold schemaIssues, callTool.
  destruct (String.eqb toolName "get_definition") eqn:E1; cbn [orb].
  { intros [= H]. apply issues_of_inl in H.
    unfold try_catch, handleGetDefinition, bind, parse. by rewrite H. }
  destruct (String.eqb toolName "get_references") eqn:E2; cbn [orb].
  { intros [= H]. apply issues_of_inl in H.
    unfold try_catch, handleGetReferences, bind, parse. by rewrite H. }
  destruct (String.eqb toolName "search_in_file") eqn:E3.
  { intros [= H]. apply issues_of_inl in H.
    unfold try_catch, handleSearchInFile, bind, parse. by rewrite H. }
  destruct (String.eqb toolName "check_function_call") eqn:E4; [| discriminate].
  intros [= H]. apply issues_of_inl in H.
  unfold try_catch, handleCheckFunctionCall, bind, parse. by rewrite H.
Qed.

(** X13: what get_definition and get_references make of the client's
    answer.  A definition answer of null gives "No definition found.", one
    location gives its formatted text, a list gives the texts separated by
    an empty line, so that the empty list gives the empty text; a reference
    answer is serialized as it is, null included; an error thrown by the
    client, whatever its cause, gives its message after "Error: ", with the
    error flag. *)
Theorem position_tool_results
    (fuel : nat) (args : JVal) (w : World) (s : State)
    (filePath : string) (ln ch : JsNumber) :
  argsSchema args = inr (filePath, ln, ch) ->
  (forall r s', getDefinition filePath ln ch w s = (Returned r, s') ->
     callTool fuel "get_definition" args w s =
       (Returned (textResult (definitionText r)), s')) /\
  definitionText (DefMany []) = EmptyString /\
  (forall r s', getReferences filePath ln ch w s = (Returned r, s') ->
     callTool fuel "get_references" args w s =
       (Returned (textResult (JSON_stringify_locations r)), s')) /\
  (forall e s', getDefinition filePath ln ch w s = (Thrown e, s') ->
     callTool fuel "get_definition" args w s =
       (Returned (mkToolResult ("Error: " ++ message e) true), s')) /\
  (forall e s', getReferences filePath ln ch w s = (Thrown e, s') ->
     callTool fuel "get_references" args w s =
       (Returned (mkToolResult ("Error: " ++ message e) true), s')).
Proof.
  intros Hargs. unfold callTool. cbn [String.eqb Ascii.eqb Bool.eqb].
  unfold try_catch, handleGetDefinition, handleGetReferences, bind, parse.
  rewrite Hargs. cbn. repeat split; intros ? ? ->; try reflexivity.
  by destruct r.
Qed.

End MoreTools.

Lemma unknown_tool_rejected_witness :
  callTool (RT := Posix.runtime) 0 "get_hover" MoreExamples.positionArgs
    MoreExamples.oneDefinition initialState =
  (Returned (mkToolResult "Error: MCP error -32601: Unknown tool: get_hover" true),
   initialState).
Proof.
  apply (unknown_tool_rejected (RT := Posix.runtime) 0 "get_hover"
           MoreExamples.positionArgs MoreExamples.oneDefinition initialState).
  cbn. intros [H | [H | [H | [H | []]]]]; discriminate H.
Defined.

Lemma listed_schema_matches_handler_witness :
  schemaIssues (RT := Posix.runtime) "search_in_file" (MoreExamples.searchArgs "aa") = Some [].
Proof.
  apply (listed_schema_matches_handler (RT := Posix.runtime)
           (mkTool "search_in_file"
              "Search for a string in a file to find its line and character position. Useful for finding the arguments for get_definition."
              [ mkToolProperty "filePath" "string" "The absolute path to the file to search in";
                mkToolProperty "query" "string" "The string to search for" ]
              ["filePath"; "query"])
           [("filePath", JStr "a.ts"); ("query", JStr "aa")]).
  - cbn. tauto.
  - intros k [<- | [<- | []]]; reflexivity.
Defined.

Lemma validation_error_before_any_effect_witness :
  callTool (RT := Posix.runtime) 0 "check_function_call" (MoreExamples.searchArgs "aa")
    MoreExamples.oneDefinition initialState =
  (Returned (mkToolResult
     "Error: invalid_type at sourceFile; invalid_type at sourceFunction; invalid_type at targetFile; invalid_type at targetFunction"
     true), initialState).
Proof.
  apply (validation_error_before_any_effect (RT := Posix.runtime) 0
           "check_function_call" (MoreExamples.searchArgs "aa")
           MoreExamples.oneDefinition initialState
           (invalid_type ["sourceFile"] "string" "undefined")
           [invalid_type ["sourceFunction"] "string" "undefined";
            invalid_type ["targetFile"] "string" "undefined";
            invalid_type ["targetFunction"] "string" "undefined"]).
  reflexivity.
Defined.

Lemma position_tool_results_witness :
  callTool (RT := Posix.runtime) 0 "get_definition" MoreExamples.positionArgs
    MoreExamples.oneDefinition initialState =
  (Returned (textResult EmptyString), MoreExamples.opened).
Proof.
  exact (proj1 (position_tool_results (RT := Posix.runtime) 0
                  MoreExamples.positionArgs MoreExamples.oneDefinition initialState
                  "a.ts" (Some 0) (Some 6) eq_refl)
               (DefMany []) MoreExamples.opened eq_refl).
Defined.

(** ** Failures and verdicts *)

Section Verdicts.

Context `{RT : JsRuntime}.

Lemma isLocationInRange_other_file_aux (loc : Location) (r : Range) (f : string) :
  ~ samePath (uri loc) f -> isLocationInRange loc r f = false.
Proof.
  intros Hp. apply not_true_is_false. rewrite isLocationInRange_true. tauto.
Qed.

(** A handshake that fails leaves, after its three first effects, log
    entries and at most an undelivered notification. *)
Lemma initialize_failure_noise (w : World) (s : State) (e : Exn) :
  isInitialized (client s) = false ->
  handshake w s = inl e ->
  exists evs,
    initialize w s =
      (Thrown e, mkState (client s) (history s ++ handshakeStart s ++ evs)) /\
    forallb handshakeNoise evs = true.
Proof.
  intros Hi Hh. unfold handshake, handshakeHistory, handshakeParams in Hh.
  unfold initialize, bind, getClient, try_catch, console_error, emit,
    sendRequest, sendNotification, setClient, ret, throw.
  rewrite Hi. cbn. flat.
  destruct (srv_initialize _ _ _) as [e' | r'].
  - injection Hh as ->. cbn. flat. eexists. split; reflexivity.
  - cbn. flat.
    destruct (srv_notification _ _ _ _) as [e' |]; [| discriminate].
    injection Hh as ->. cbn. flat. eexists. split; reflexivity.
Qed.

Lemma ensureInitialized_failure (w : World) (s : State) (e : Exn) :
  isInitialized (client s) = false ->
  handshake w s = inl e ->
  exists evs,
    ensureInitialized w s =
      (Thrown e, mkState (client s) (history s ++ handshakeStart s ++ evs)) /\
    forallb handshakeNoise evs = true.
Proof.
  intros Hi Hh. destruct (initialize_failure_noise w s e Hi Hh) as (evs & Hf & Hn).
  exists evs. split; [| exact Hn]. rewrite ensureInitialized_fresh by done.
  by rewrite Hf.
Qed.

(** X14: while the handshake fails, every tool that needs the server
    answers with the error of the handshake, flagged; the client stays
    uninitialized, and apart from the attempt itself nothing happens: no
    file is read, no document is announced, no query is sent. *)
Theorem handshake_failure_surfaced
    (fuel : nat) (toolName : string) (args : JVal) (w : World) (s : State) (e : Exn) :
  isInitialized (client s) = false ->
  handshake w s = inl e ->
  schemaIssues toolName args = Some [] ->
  toolName <> "search_in_file" ->
  exists evs,
    callTool fuel toolName args w s =
      (Returned (mkToolResult ("Error: " ++ message e) true),
       mkState (client s) (history s ++ handshakeStart s ++ evs)) /\
    forallb handshakeNoise evs = true.
Proof.
  intros Hi Hh Hschema Hname.
  destruct (ensureInitialized_failure w s e Hi Hh) as (evs & Hf & Hn).
  exists evs. split; [| exact Hn].
  unfold schemaIssues in Hschema. unfold callTool.
  assert (Hk : forall A (k : unit -> M A),
             bind ensureInitialized k w s =
             (Thrown e, mkState (client s) (history s ++ handshakeStart s ++ evs))).
  { intros A k. unfold bind. by rewrite Hf. }
  destruct (String.eqb toolName "get_definition") eqn:E1; cbn [orb] in Hschema.
  { injection Hschema as Hs. apply argsSchema_no_issues in Hs as [[[f l] c] Hs].
    unfold try_catch, handleGetDefinition, parse. rewrite Hs.
    unfold bind at 1. cbn -[getDefinition]. unfold bind at 1.
    unfold getDefinition. by rewrite Hk. }
  destruct (String.eqb toolName "get_references") eqn:E2; cbn [orb] in Hschema.
  { injection Hschema as Hs. apply argsSchema_no_issues in Hs as [[[f l] c] Hs].
    unfold try_catch, handleGetReferences, parse. rewrite Hs.
    unfold bind at 1. cbn -[getReferences]. unfold bind at 1.
    unfold getReferences. by rewrite Hk. }
  destruct (String.eqb_spec toolName "search_in_file"); [done |].
  destruct (String.eqb toolName "check_function_call") eqn:E4; [| discriminate].
  injection Hschema as Hs. apply checkSchema_no_issues in Hs as [[[[sf sn] tf] tn] Hs].
  unfold try_catch, handleCheckFunctionCall, parse. rewrite Hs.
  unfold bind at 1. cbn -[getDocumentSymbols]. unfold bind at 1.
  unfold getDocumentSymbols at 1. by rewrite Hk.
Qed.

(** X15: the verdict of check_function_call.  With both symbols found, the
    references answered and a range for the source symbol, the calls are the
    references contained in that range, in the order of the server; without
    any the answer is "No direct call found from ... to ...", otherwise it is
    "Yes, ..." with their number and their serialization. *)
Theorem check_function_call_verdict
    (fuel : nat) (args : JVal) (w : World) (s s1 s2 s3 : State)
    (sourceFile sourceFunction targetFile targetFunction : string)
    (sourceSymbols targetSymbols : list Symbol) (sourceSym targetSym : Symbol)
    (pos : Position) (refs : list Location) (sourceRange : Range) :
  checkSchema args = inr (sourceFile, sourceFunction, targetFile, targetFunction) ->
  getDocumentSymbols sourceFile w s = (Returned (Some sourceSymbols), s1) ->
  findSymbol sourceSymbols sourceFunction = Some sourceSym ->
  getDocumentSymbols targetFile w s1 = (Returned (Some targetSymbols), s2) ->
  findSymbol targetSymbols targetFunction = Some targetSym ->
  targetPositionOf targetSym = Some pos ->
  getReferences targetFile (Number_of_Z (line pos)) (Number_of_Z (character pos)) w s2 =
    (Returned (Some refs), s3) ->
  sourceRangeOf sourceSym = Some sourceRange ->
  let calls := List.filter (fun ref => isLocationInRange ref sourceRange sourceFile) refs in
  callTool fuel "check_function_call" args w s =
    (Returned (textResult
       match calls with
       | [] => "No direct call found from '" ++ sourceFunction ++ "' to '" ++
               targetFunction ++ "'."
       | _ :: _ =>
           "Yes, '" ++ sourceFunction ++ "' calls '" ++ targetFunction ++ "' " ++
           pretty (Z.of_nat (length calls)) ++ " times." ++ nl ++
           "Locations: " ++ JSON_stringify_locations (Some calls)
       end), s3) /\
  (forall ref, In ref calls <->
     In ref refs /\ isLocationInRange ref sourceRange sourceFile = true) /\
  ((forall ref, In ref refs -> ~ samePath (uri ref) sourceFile) -> calls = []).
Proof.
  intros Hargs Hs Hsf Ht Htf Hpos Hrefs Hrange calls. split; [| split].
  - unfold callTool. cbn [String.eqb Ascii.eqb Bool.eqb].
    unfold try_catch, handleCheckFunctionCall, bind, parse.
    rewrite Hargs. cbn. rewrite Hs. cbn. rewrite Hsf, Ht. cbn.
    rewrite Htf, Hpos, Hrefs. cbn. rewrite Hrange. fold calls.
    by destruct calls.
  - intros ref. apply List.filter_In.
  - intros Hother. unfold calls. clear calls Hrefs.
    induction refs as [| ref refs' IH]; cbn; [done |].
    rewrite isLocationInRange_other_file_aux by (apply Hother; by left).
    apply IH. intros; apply Hother; by right.
Qed.

End Verdicts.

Lemma handshake_failure_surfaced_witness :
  exists evs,
    callTool (RT := Posix.runtime) 0 "get_definition" MoreExamples.positionArgs
      MoreExamples.noServer initialState =
    (Returned (mkToolResult "Error: Connection is closed." true),
     mkState (client (initialState (RT := Posix.runtime)))
       (handshakeStart initialState ++ evs)) /\
    forallb handshakeNoise evs = true.
Proof.
  apply (handshake_failure_surfaced (RT := Posix.runtime) 0 "get_definition"
           MoreExamples.positionArgs MoreExamples.noServer initialState
           (HostError "Connection is closed.")).
  - reflexivity.
  - reflexivity.
  - reflexivity.
  - discriminate.
Defined.

Lemma check_function_call_verdict_witness :
  let refs := [MoreExamples.callInMain; MoreExamples.callOutside] in
  callTool (RT := Posix.runtime) 0 "check_function_call" (Examples.checkArgs "main")
    (Examples.project (Some refs)) initialState =
  (Returned (textResult
     ("Yes, 'main' calls 'add' 1 times." ++ nl ++
      "Locations: " ++ Posix.locations (Some [MoreExamples.callInMain]))),
   Examples.afterReferences (Some refs)).
Proof.
  intros refs.
  exact (proj1 (check_function_call_verdict (RT := Posix.runtime) 0
                  (Examples.checkArgs "main") (Examples.project (Some refs)) initialState
                  (Examples.afterSourceOutline (Some refs))
                  (Examples.afterTargetOutline (Some refs))
                  (Examples.afterReferences (Some refs))
                  "a.ts" "main" "a.ts" "add"
                  [Examples.mainSym; Examples.addSym] [Examples.mainSym; Examples.addSym]
                  Examples.mainSym Examples.addSym (mkPosition 7 9) refs
                  (mkRange (mkPosition 0 0) (mkPosition 5 1))
                  eq_refl eq_refl eq_refl eq_refl eq_refl eq_refl eq_refl eq_refl)).
Defined.

Section Lookups.

Context `{RT : JsRuntime}.

(** X16: the lookups of check_function_call fail in order, each with its
    own text and without the error flag, and each stops the tool: without an
    outline of the source file the target file is not asked for; without an
    outline of the target file, without the target function in it, or
    without a position for the target symbol, no reference request is
    sent. *)
Theorem check_function_call_lookup_failures
    (fuel : nat) (args : JVal) (w : World) (s s1 : State)
    (sourceFile sourceFunction targetFile targetFunction : string) :
  checkSchema args = inr (sourceFile, sourceFunction, targetFile, targetFunction) ->
  let answers (t : string) (s' : State) :=
    callTool fuel "check_function_call" args w s = (Returned (textResult t), s') in
  (getDocumentSymbols sourceFile w s = (Returned None, s1) ->
   answers "Source file symbols not found" s1) /\
  (forall sourceSymbols sourceSym s2 targetOutline,
     getDocumentSymbols sourceFile w s = (Returned (Some sourceSymbols), s1) ->
     findSymbol sourceSymbols sourceFunction = Some sourceSym ->
     getDocumentSymbols targetFile w s1 = (Returned targetOutline, s2) ->
     match targetOutline with
     | None => answers "Target file symbols not found" s2
     | Some targetSymbols =>
         match findSymbol targetSymbols targetFunction with
         | None =>
             answers ("Target function '" ++ targetFunction ++ "' not found in " ++
                      targetFile) s2
         | Some targetSym =>
             targetPositionOf targetSym = None ->
             answers "Could not determine location of target symbol" s2
         end
     end).
Proof.
  intros Hargs answers. unfold answers, callTool.
  cbn [String.eqb Ascii.eqb Bool.eqb].
  unfold try_catch, handleCheckFunctionCall, bind, parse. rewrite Hargs. cbn.
  split.
  - by intros ->.
  - intros sourceSymbols sourceSym s2 targetOutline -> Hsf Ht. cbn.
    rewrite Hsf, Ht. cbn.
    destruct targetOutline as [targetSymbols |]; [| done].
    destruct (findSymbol targetSymbols targetFunction) as [targetSym |]; [| done].
    by intros ->.
Qed.

End Lookups.

Lemma check_function_call_lookup_failures_witness :
  callTool (RT := Posix.runtime) 0 "check_function_call" (Examples.checkArgs "main")
    MoreExamples.bareProject initialState =
  (Returned (textResult "Could not determine location of target symbol"),
   after (getDocumentSymbols "a.ts") MoreExamples.bareProject
     (after (getDocumentSymbols "a.ts") MoreExamples.bareProject initialState)).
Proof.
  exact (proj2 (check_function_call_lookup_failures (RT := Posix.runtime) 0
                  (Examples.checkArgs "main") MoreExamples.bareProject initialState
                  (after (getDocumentSymbols "a.ts") MoreExamples.bareProject initialState)
                  "a.ts" "main" "a.ts" "add" eq_refl)
               [Examples.mainSym; MoreExamples.bareSym] Examples.mainSym
               (after (getDocumentSymbols "a.ts") MoreExamples.bareProject
                  (after (getDocumentSymbols "a.ts") MoreExamples.bareProject initialState))
               (Some [Examples.mainSym; MoreExamples.bareSym])
               eq_refl eq_refl eq_refl eq_refl).
Defined.

(** ** The search in a file, continued *)

Section MoreSearch.

Context `{RT : JsRuntime}.

Lemma split_length_le (sep : ascii) (s ln : string) :
  In ln (Js.split sep s) -> (String.length ln <= String.length s)%nat.
Proof.
  revert ln. induction s as [| a s IH]; cbn [Js.split]; intros ln.
  - intros [<- | []]. done.
  - destruct (Js.split sep s) as [| piece pieces] eqn:Hs;
      [by destruct (split_nonempty sep s) |].
    destruct (Ascii.eqb a sep).
    + intros [<- | Hin]; simpl; [lia |]. specialize (IH ln Hin). lia.
    + intros [<- | Hin]; simpl.
      * specialize (IH piece ltac:(by left)). lia.
      * specialize (IH ln ltac:(by right)). lia.
Qed.

(** A loop that ended within a bound ends the same within a larger one. *)
Lemma searchWhile_more_fuel (ln query : string) (i : Z) (fuel : nat) :
  forall (index : Z) (acc ms : list Match),
    searchWhile fuel ln query i index acc = Some ms ->
    forall fuel', (fuel <= fuel')%nat ->
    searchWhile fuel' ln query i index acc = Some ms.
Proof.
  induction fuel as [| fuel IH]; intros index acc ms; cbn.
  - destruct (Z.eqb_spec index (-1)); [| discriminate].
    intros [= <-] fuel' _. destruct fuel'; cbn;
      by destruct (Z.eqb_spec index (-1)).
  - destruct (Z.eqb_spec index (-1)).
    + intros [= <-] fuel' _. destruct fuel'; cbn;
        by destruct (Z.eqb_spec index (-1)).
    + intros H [| fuel'] Hle; [lia |]. cbn.
      destruct (Z.eqb_spec index (-1)); [done |].
      apply (IH _ _ _ H). lia.
Qed.

Lemma searchFor_more_fuel (query : string) (fuel fuel' : nat) :
  (fuel <= fuel')%nat ->
  forall (lines : list string) (i : Z) (acc ms : list Match),
    searchFor fuel lines query i acc = Some ms ->
    searchFor fuel' lines query i acc = Some ms.
Proof.
  intros Hle. induction lines as [| ln rest IH]; intros i acc ms; cbn; [done |].
  destruct (searchWhile fuel ln query i _ acc) as [acc' |] eqn:Hw; [| discriminate].
  rewrite (searchWhile_more_fuel _ _ _ _ _ _ _ Hw fuel' Hle). apply IH.
Qed.

(** Whatever the bound, a search that returns has found exactly the
    occurrences. *)
Lemma searchFor_exact (fuel : nat) (query : string) (lines : list string)
    (i : Z) (acc ms : list Match) :
  query <> EmptyString ->
  searchFor fuel lines query i acc = Some ms ->
  ms = (acc ++ expectedMatches lines query i)%list.
Proof.
  intros Hq Hs.
  set (big := S (list_max (map String.length lines))).
  assert (Hbig : forall ln, In ln lines -> (String.length ln < big)%nat).
  { intros ln Hin. unfold big.
    pose proof (proj1 (list_max_le (map String.length lines) _) (Nat.le_refl _)) as Hall.
    rewrite List.Forall_forall in Hall.
    specialize (Hall (String.length ln) (in_map _ _ _ Hin)). lia. }
  pose proof (searchFor_more_fuel query fuel (Nat.max fuel big) (Nat.le_max_l _ _)
                lines i acc ms Hs) as Hmore.
  rewrite (searchFor_reports_every_occurrence (Nat.max fuel big) query Hq) in Hmore.
  - by injection Hmore.
  - intros ln Hin. specialize (Hbig ln Hin). lia.
Qed.

(** X17: search_in_file on a query that is not empty.  Given a bound above
    the length of the content the tool returns, and its answer counts and
    lists exactly the occurrences of the query in each line, overlapping
    ones included, in the order of the file; with any other bound it gives
    that same answer or is cut, never another answer. *)
Theorem search_in_file_exact
    (fuel : nat) (args : JVal) (w : World) (s : State)
    (filePath query content : string) :
  searchSchema args = inr (filePath, query) ->
  query <> EmptyString ->
  fs_readFile w (history s) filePath = inr content ->
  let ms := expectedMatches (Js.split Js.LF content) query 0 in
  let answer :=
    textResult
      ("Found " ++ pretty (Z.of_nat (length ms)) ++
       " matches (coordinates are 0-based, ready for use with get_definition/get_references):"
       ++ nl ++ JSON_stringify_matches ms) in
  let s' := mkState (client s) (history s ++ [EvReadFile filePath]) in
  ((String.length content < fuel)%nat ->
   callTool fuel "search_in_file" args w s = (Returned answer, s')) /\
  (callTool fuel "search_in_file" args w s = (Returned answer, s') \/
   callTool fuel "search_in_file" args w s = (Unfinished, s')).
Proof.
  intros Hargs Hq Hread ms answer s'.
  assert (Hcall : callTool fuel "search_in_file" args w s =
            match searchFor fuel (Js.split Js.LF content) query 0 [] with
            | Some found =>
                (Returned (textResult
                   ("Found " ++ pretty (Z.of_nat (length found)) ++
                    " matches (coordinates are 0-based, ready for use with get_definition/get_references):"
                    ++ nl ++ JSON_stringify_matches found)), s')
            | None => (Unfinished, s')
            end).
  { unfold callTool. cbn [String.eqb Ascii.eqb Bool.eqb].
    unfold try_catch, handleSearchInFile, bind, parse, readFile.
    rewrite Hargs. cbn. rewrite Hread. cbn.
    by destruct (searchFor fuel _ query 0 []). }
  rewrite Hcall. split.
  - intros Hfuel.
    rewrite (searchFor_reports_every_occurrence fuel query Hq); [done |].
    intros ln Hin. apply split_length_le in Hin. lia.
  - destruct (searchFor fuel _ query 0 []) as [found |] eqn:Hs; [| by right].
    left. by rewrite (searchFor_exact _ _ _ _ _ _ Hq Hs).
Qed.

(** X18: search_in_file works on the file system alone: it leaves the
    client as it is, sends nothing to the server and at most reads the one
    file; a file that cannot be read gives the error of the read, flagged. *)
Theorem search_in_file_leaves_client
    (fuel : nat) (args : JVal) (w : World) (s : State) :
  client (after (callTool fuel "search_in_file" args) w s) = client s /\
  (history (after (callTool fuel "search_in_file" args) w s) = history s \/
   exists filePath,
     history (after (callTool fuel "search_in_file" args) w s) =
     (history s ++ [EvReadFile filePath])%list) /\
  (forall filePath query e,
     searchSchema args = inr (filePath, query) ->
     fs_readFile w (history s) filePath = inl e ->
     callTool fuel "search_in_file" args w s =
       (Returned (mkToolResult ("Error: " ++ message e) true),
        mkState (client s) (history s ++ [EvReadFile filePath]))).
Proof.
  unfold after, callTool. cbn [String.eqb Ascii.eqb Bool.eqb].
  unfold try_catch, handleSearchInFile, bind, parse, readFile.
  destruct (searchSchema args) as [issues | [f q]] eqn:Hargs; cbn.
  - repeat split; [by left | discriminate].
  - destruct (fs_readFile w (history s) f) as [e | content] eqn:Hread; cbn.
    + repeat split; [right; by exists f |].
      intros f' q' e' [= <- <-] He. rewrite Hread in He. by injection He as ->.
    + destruct (searchFor fuel _ q 0 []); cbn;
        (repeat split; [right; by exists f |]);
        intros f' q' e' [= <- <-] He; rewrite Hread in He; discriminate.
Qed.

End MoreSearch.

Lemma search_in_file_exact_witness :
  callTool (RT := Posix.runtime) 20 "search_in_file" (MoreExamples.searchArgs "aa")
    MoreExamples.oneDefinition initialState =
  (Returned (textResult
     ("Found 2 matches (coordinates are 0-based, ready for use with get_definition/get_references):"
      ++ nl ++ Posix.matches [mkMatch 1 0 "aaa"; mkMatch 1 1 "aaa"])),
   mkState (client (initialState (RT := Posix.runtime))) [EvReadFile "a.ts"]).
Proof.
  apply (search_in_file_exact (RT := Posix.runtime) 20 (MoreExamples.searchArgs "aa")
           MoreExamples.oneDefinition initialState "a.ts" "aa"
           ("const a = 1;" ++ nl ++ "aaa")).
  - reflexivity.
  - discriminate.
  - reflexivity.
  - vm_compute. lia.
Defined.

Section Coordinates.

Context `{RT : JsRuntime}.

Lemma substring_append_l (s t : string) :
  forall j n, (j + n <= String.length s)%nat ->
              String.substring j n (s ++ t) = String.substring j n s.
Proof.
  induction s as [| a s IH]; intros j n Hle.
  - simpl in Hle. assert (j = 0%nat /\ n = 0%nat) as [-> ->] by lia.
    simpl. by rewrite substring_nothing.
  - destruct j as [| j].
    + destruct n as [| n]; simpl; [done |]. f_equal. apply IH. simpl in Hle. lia.
    + simpl. apply IH. simpl in Hle. lia.
Qed.

(** In the lines joined with newlines, a piece of line [k] lies at the
    offset of the line plus its index in the line. *)
Lemma substring_join (lines : list string) :
  forall (k : nat) (ln : string) (j n : nat),
    nth_error lines k = Some ln ->
    (j + n <= String.length ln)%nat ->
    String.substring (lineOffset lines k + j) n (join nl lines) =
    String.substring j n ln.
Proof.
  induction lines as [| l0 rest IH]; intros [| k] ln j n Hk Hle; try discriminate.
  - injection Hk as ->. cbn [lineOffset]. simpl Nat.add.
    destruct rest as [| l1 rest]; [done |].
    change (join nl (ln :: l1 :: rest)) with (ln ++ (nl ++ join nl (l1 :: rest))).
    by apply substring_append_l.
  - cbn [nth_error] in Hk. destruct rest as [| l1 rest]; [by destruct k |].
    change (join nl (l0 :: l1 :: rest))
      with (l0 ++ String Js.LF (join nl (l1 :: rest))).
    change (lineOffset (l0 :: l1 :: rest) (S k))
      with (S (String.length l0) + lineOffset (l1 :: rest) k)%nat.
    replace (S (String.length l0) + lineOffset (l1 :: rest) k + j)%nat
      with (String.length l0 + S (lineOffset (l1 :: rest) k + j))%nat by lia.
    rewrite substring_append_skip.
    change (String.substring (S (lineOffset (l1 :: rest) k + j)) n
              (String Js.LF (join nl (l1 :: rest))))
      with (String.substring (lineOffset (l1 :: rest) k + j) n (join nl (l1 :: rest))).
    by apply IH.
Qed.

Lemma In_expectedMatches (query : string) (m : Match) :
  forall (lines : list string) (i0 : Z),
    In m (expectedMatches lines query i0) ->
    exists (k : nat) (ln : string) (j : nat),
      nth_error lines k = Some ln /\
      In j (occurrencesFrom ln query 0) /\
      m = mkMatch (i0 + Z.of_nat k) (Z.of_nat j) (Js.trim ln).
Proof.
  induction lines as [| l0 rest IH]; intros i0; cbn [expectedMatches]; [done |].
  intros Hin. apply in_app_or in Hin as [Hin | Hin].
  - apply in_map_iff in Hin as (j & <- & Hj). exists 0%nat, l0, j.
    split; [done |]. split; [done |]. f_equal. lia.
  - apply IH in Hin as (k & ln & j & Hk & Hj & ->). exists (S k), ln, j.
    split; [done |]. split; [done |]. f_equal. lia.
Qed.

Lemma occurrence_fits (ln query : string) (j : nat) :
  query <> EmptyString ->
  In j (occurrencesFrom ln query 0) ->
  String.substring j (String.length query) ln = query /\
  (j + String.length query <= String.length ln)%nat.
Proof.
  intros Hq Hin. apply List.filter_In in Hin as [_ Hat].
  apply String.eqb_eq in Hat. split; [done |].
  pose proof (substring_length_le ln j (String.length query)) as Hl.
  rewrite Hat in Hl. destruct query; [done |]. simpl in *. lia.
Qed.

(** X19: the coordinates search_in_file reports locate the query in the
    file.  For every match of a search that returned, on a query that is
    not empty: its line number is the index of a line of the content, its
    character an index in that line at which the query fits and stands, its
    text that line trimmed; and, counting one code unit for each newline,
    the query stands in the content at the offset of the line plus the
    character. *)
Theorem search_match_locates_query
    (fuel : nat) (content query : string) (ms : list Match) (m : Match) :
  query <> EmptyString ->
  searchFor fuel (Js.split Js.LF content) query 0 [] = Some ms ->
  In m ms ->
  exists (k j : nat) (ln : string),
    m = mkMatch (Z.of_nat k) (Z.of_nat j) (Js.trim ln) /\
    nth_error (Js.split Js.LF content) k = Some ln /\
    (j + String.length query <= String.length ln)%nat /\
    String.substring j (String.length query) ln = query /\
    String.substring (lineOffset (Js.split Js.LF content) k + j)
                     (String.length query) content = query.
Proof.
  intros Hq Hs Hin. apply (searchFor_exact _ _ _ _ _ _ Hq) in Hs. subst ms.
  cbn [app] in Hin. apply In_expectedMatches in Hin as (k & ln & j & Hk & Hj & ->).
  destruct (occurrence_fits ln query j Hq Hj) as [Hat Hfit].
  exists k, j, ln. repeat split; try done.
  rewrite <- (join_split content) at 2.
  rewrite (substring_join _ k ln j _ Hk Hfit). exact Hat.
Qed.

End Coordinates.

Lemma search_match_locates_query_witness :
  exists (k j : nat) (ln : string),
    mkMatch 1 1 "aaa" = mkMatch (Z.of_nat k) (Z.of_nat j) (Js.trim ln) /\
    nth_error (Js.split Js.LF ("const a = 1;" ++ nl ++ "aaa")) k = Some ln /\
    (j + String.length "aa" <= String.length ln)%nat /\
    String.substring j (String.length "aa") ln = "aa" /\
    String.substring (lineOffset (Js.split Js.LF ("const a = 1;" ++ nl ++ "aaa")) k + j)
                     (String.length "aa") ("const a = 1;" ++ nl ++ "aaa") = "aa".
Proof.
  apply (search_match_locates_query 5 ("const a = 1;" ++ nl ++ "aaa") "aa"
           [mkMatch 1 0 "aaa"; mkMatch 1 1 "aaa"] (mkMatch 1 1 "aaa")).
  - discriminate.
  - reflexivity.
  - right. left. reflexivity.
Defined.

(** ** The protocol along a run of tool calls *)

Section Protocol.

Context `{RT : JsRuntime}.

Lemma countInitialized_app (h1 h2 : list Event) :
  countInitialized (h1 ++ h2) = (countInitialized h1 + countInitialized h2)%nat.
Proof. unfold countInitialized. by rewrite List.filter_app, length_app. Qed.

Lemma protocolOrder_true (h : list Event) : protocolOrder true h = true.
Proof.
  induction h as [| ev h IH]; cbn; [done |].
  destruct (isInitializedNotification ev); [done |].
  by destruct (isDocumentMessage ev).
Qed.

Lemma protocolOrder_app (h1 h2 : list Event) :
  forall seen,
    protocolOrder seen (h1 ++ h2) =
    protocolOrder seen h1 &&
    protocolOrder (seen || (0 <? countInitialized h1)%nat) h2.
Proof.
  induction h1 as [| ev h1 IH]; intros seen; cbn.
  - by rewrite orb_false_r.
  - unfold countInitialized. cbn.
    destruct (isInitializedNotification ev) eqn:Hi; cbn.
    + rewrite orb_true_r, IH. cbn. by rewrite !protocolOrder_true.
    + fold (countInitialized h1). rewrite IH.
      destruct (isDocumentMessage ev); [| done].
      by rewrite andb_assoc.
Qed.

Lemma protocolOrder_quiet (h : list Event) (seen : bool) :
  forallb (fun ev => negb (isDocumentMessage ev)) h = true ->
  protocolOrder seen h = true.
Proof.
  revert seen. induction h as [| ev h IH]; intros seen; cbn; [done |].
  intros [Hev Hh]%andb_prop.
  destruct (isInitializedNotification ev); [apply protocolOrder_true |].
  destruct (isDocumentMessage ev); [discriminate |]. by apply IH.
Qed.

(** Effects that deliver no initialized notification, are effects of the
    client, and are messages about documents only on an initialized client,
    keep the history orderly. *)
Lemma orderly_step (hover : bool) (s s' : State) (evs : list Event) :
  orderly hover s ->
  isInitialized (client s') = isInitialized (client s) ->
  history s' = (history s ++ evs)%list ->
  countInitialized evs = 0%nat ->
  forallb (clientEvent hover) evs = true ->
  isInitialized (client s) = true \/
    forallb (fun ev => negb (isDocumentMessage ev)) evs = true ->
  orderly hover s'.
Proof.
  intros [Honce Horder Hevents] Hflag Hh Hcount Hevs Hdoc. split.
  - rewrite Hh, Hflag, countInitialized_app, Honce, Hcount. lia.
  - rewrite Hh, protocolOrder_app, Horder. cbn [andb orb].
    destruct Hdoc as [Hi | Hq]; [| by apply protocolOrder_quiet].
    rewrite Honce, Hi. cbn. apply protocolOrder_true.
  - by rewrite Hh, forallb_app, Hevents, Hevs.
Qed.

Lemma handshakeNoise_quiet (hover : bool) (evs : list Event) :
  forallb handshakeNoise evs = true ->
  countInitialized evs = 0%nat /\
  forallb (clientEvent hover) evs = true /\
  forallb (fun ev => negb (isDocumentMessage ev)) evs = true.
Proof.
  induction evs as [| ev evs IH]; cbn; [done |].
  intros [Hev Hevs]%andb_prop. destruct (IH Hevs) as (Hc & He & Hd).
  unfold countInitialized in *. cbn.
  destruct ev as [m p | m p | m p | f | msg err]; try discriminate Hev; cbn.
  - destruct p; try discriminate Hev. cbn in Hev. rewrite Hev. cbn. auto.
  - auto.
Qed.

(** The state a handshake that went through leaves is orderly. *)
Lemma orderly_handshake (hover : bool) (s : State) :
  orderly hover s ->
  isInitialized (client s) = false ->
  orderly hover
    (mkState (mkLspClient (rootPath (client s)) true (openFiles (client s)))
             (history s ++ handshakeStart s ++
              [EvConsoleError "Initialize request successful." None;
               EvNotification "initialized" EmptyParams])).
Proof.
  intros [Honce Horder Hevents] Hi. split; cbn [client history isInitialized].
  - rewrite countInitialized_app, Honce, Hi. reflexivity.
  - rewrite protocolOrder_app, Horder. reflexivity.
  - rewrite forallb_app, Hevents. reflexivity.
Qed.

Lemma orderly_didOpen (hover : bool) (w : World) (s : State) (f : string) :
  orderly hover s ->
  isInitialized (client s) = true ->
  orderly hover (after (didOpen f) w s) /\
  isInitialized (client (after (didOpen f) w s)) = true.
Proof.
  intros Ho Hi. unfold after.
  destruct (decide (uriOf (client s) f ∈ openFiles (client s))).
  - by rewrite didOpen_opened.
  - rewrite didOpen_unopened by done. cbn [snd].
    destruct (fs_readFile _ _ _) as [e | content].
    + split; [| done]. eapply orderly_step; try done; auto.
    + destruct (srv_notification _ _ _ _) as [e |].
      * split; [| done]. eapply orderly_step; try done; auto.
      * split; [| done]. eapply orderly_step; try done; auto.
Qed.

Lemma clientEvent_queryRequest (hover : bool) (q : Query) (u : string) :
  hover = true \/ toolQuery q = true ->
  clientEvent hover (queryRequest q u) = true.
Proof.
  intros [-> | Hq]; by destruct q.
Qed.

Lemma runQuery_throws (q : Query) (w : World) (s s' : State) (e : Exn) :
  ensureInitialized w s = (Thrown e, s') -> after (runQuery q) w s = s'.
Proof.
  intros H. unfold after.
  destruct q; cbn [runQuery];
    unfold getDefinition, getReferences, getHover, getDocumentSymbols, bind;
    by rewrite H.
Qed.

Lemma runQuery_after_handshake (q : Query) (w : World) (s s1 : State) :
  ensureInitialized w s = (Returned tt, s1) ->
  after (runQuery q) w s = after (runQuery q) w s1.
Proof.
  intros H. pose proof (ensureInitialized_returned w s s1 H) as Hi.
  pose proof (ensureInitialized_done w s1 Hi) as H1. unfold after.
  destruct q; cbn [runQuery];
    unfold getDefinition, getReferences, getHover, getDocumentSymbols, bind;
    by rewrite H, H1.
Qed.

Lemma orderly_runQuery_initialized (hover : bool) (w : World) (s : State) (q : Query) :
  hover = true \/ toolQuery q = true ->
  orderly hover s ->
  isInitialized (client s) = true ->
  orderly hover (after (runQuery q) w s).
Proof.
  intros Hq Ho Hi. rewrite runQuery_initialized by done. cbn zeta.
  destruct (orderly_didOpen hover w s (queryFile q) Ho Hi) as [Ho2 Hi2].
  eapply orderly_step; [exact Ho2 | reflexivity | reflexivity | | | by left].
  - by destruct q.
  - cbn. by rewrite clientEvent_queryRequest.
Qed.

(** Every query a tool makes keeps the history orderly. *)
Lemma orderly_runQuery (hover : bool) (w : World) (s : State) (q : Query) :
  hover = true \/ toolQuery q = true ->
  orderly hover s ->
  orderly hover (after (runQuery q) w s).
Proof.
  intros Hq Ho. destruct (isInitialized (client s)) eqn:Hi.
  - by apply orderly_runQuery_initialized.
  - destruct (handshake w s) as [e | r] eqn:Hh.
    + destruct (ensureInitialized_failure w s e Hi Hh) as (evs & Hf & Hn).
      rewrite (runQuery_throws q w s _ e Hf).
      destruct (handshakeNoise_quiet hover evs Hn) as (Hc & He & Hd).
      eapply orderly_step; [exact Ho | reflexivity | reflexivity | | |].
      * rewrite countInitialized_app, Hc. reflexivity.
      * rewrite forallb_app, He. reflexivity.
      * right. rewrite forallb_app, Hd. reflexivity.
    + assert (H1 : ensureInitialized w s =
                (Returned tt,
                 mkState (mkLspClient (rootPath (client s)) true (openFiles (client s)))
                   (history s ++ handshakeStart s ++
                    [EvConsoleError "Initialize request successful." None;
                     EvNotification "initialized" EmptyParams]))).
      { rewrite ensureInitialized_fresh by done.
        by rewrite (initialize_success w s r Hi Hh). }
      rewrite (runQuery_after_handshake q w s _ H1).
      apply orderly_runQuery_initialized; [done | | done].
      by apply orderly_handshake.
Qed.

End Protocol.

Section ToolRunsFacts.

Context `{RT : JsRuntime}.

Lemma after_query_definition (f : string) (l c : JsNumber) (w : World) (s : State) :
  after (runQuery (QDefinition f l c)) w s = after (getDefinition f l c) w s.
Proof.
  unfold after, runQuery, bind. by destruct (getDefinition f l c w s) as [[] ?].
Qed.

Lemma after_query_references (f : string) (l c : JsNumber) (w : World) (s : State) :
  after (runQuery (QReferences f l c)) w s = after (getReferences f l c) w s.
Proof.
  unfold after, runQuery, bind. by destruct (getReferences f l c w s) as [[] ?].
Qed.

Lemma after_query_symbols (f : string) (w : World) (s : State) :
  after (runQuery (QDocumentSymbols f)) w s = after (getDocumentSymbols f) w s.
Proof.
  unfold after, runQuery, bind. by destruct (getDocumentSymbols f w s) as [[] ?].
Qed.

(** What a tool call does to the state: it runs some of the client's
    queries, none of them a hover, or it reads one file. *)
Lemma callTool_footprint
    (fuel : nat) (toolName : string) (args : JVal) (w : World) (s : State) :
  (exists qs, forallb toolQuery qs = true /\
              after (callTool fuel toolName args) w s = runQueries w qs s) \/
  (exists f, after (callTool fuel toolName args) w s =
             mkState (client s) (history s ++ [EvReadFile f])).
Proof.
  unfold callTool.
  destruct (String.eqb toolName "get_definition").
  { left. unfold after at 1, try_catch, handleGetDefinition, bind at 1, parse.
    destruct (argsSchema args) as [issues | [[f l] c]]; [by exists [] |].
    exists [QDefinition f l c]. split; [done |].
    cbn [runQueries fold_left]. rewrite after_query_definition. unfold after, ret, bind.
    destruct (getDefinition f l c w s) as [[r | e |] s']; try destruct r; reflexivity. }
  destruct (String.eqb toolName "get_references").
  { left. unfold after at 1, try_catch, handleGetReferences, bind at 1, parse.
    destruct (argsSchema args) as [issues | [[f l] c]]; [by exists [] |].
    exists [QReferences f l c]. split; [done |].
    cbn [runQueries fold_left]. rewrite after_query_references. unfold after, ret, bind.
    by destruct (getReferences f l c w s) as [[r | e |] s']. }
  destruct (String.eqb toolName "search_in_file").
  { unfold after, try_catch, handleSearchInFile, bind, parse, readFile.
    destruct (searchSchema args) as [issues | [f q]]; [left; by exists [] |].
    right. exists f. cbn.
    destruct (fs_readFile w (history s) f); cbn; [done |].
    by destruct (searchFor fuel _ q 0 []). }
  destruct (String.eqb toolName "check_function_call"); [| left; by exists []].
  left. unfold after at 1, try_catch, handleCheckFunctionCall, bind at 1, parse.
  destruct (checkSchema args) as [issues | [[[sf sn] tf] tn]]; [by exists [] |].
  unfold ret at 1. cbn beta iota. unfold bind at 1.
  pose proof (after_query_symbols sf w s) as A1. unfold after at 2 in A1.
  destruct (getDocumentSymbols sf w s) as [[o1 | e1 |] s1]; cbn [snd] in A1;
    try (exists [QDocumentSymbols sf]; split; [done |];
         cbn [runQueries fold_left]; by rewrite A1).
  destruct o1 as [sourceSymbols |];
    [| exists [QDocumentSymbols sf]; split; [done |];
       cbn [runQueries fold_left]; by rewrite A1].
  destruct (findSymbol sourceSymbols sn) as [sourceSym |];
    [| exists [QDocumentSymbols sf]; split; [done |];
       cbn [runQueries fold_left]; by rewrite A1].
  unfold bind at 1.
  pose proof (after_query_symbols tf w s1) as A2. unfold after at 2 in A2.
  destruct (getDocumentSymbols tf w s1) as [[o2 | e2 |] s2]; cbn [snd] in A2;
    try (exists [QDocumentSymbols sf; QDocumentSymbols tf]; split; [done |];
         cbn [runQueries fold_left]; by rewrite A1, A2).
  destruct o2 as [targetSymbols |];
    [| exists [QDocumentSymbols sf; QDocumentSymbols tf]; split; [done |];
       cbn [runQueries fold_left]; by rewrite A1, A2].
  destruct (findSymbol targetSymbols tn) as [targetSym |];
    [| exists [QDocumentSymbols sf; QDocumentSymbols tf]; split; [done |];
       cbn [runQueries fold_left]; by rewrite A1, A2].
  destruct (targetPositionOf targetSym) as [pos |];
    [| exists [QDocumentSymbols sf; QDocumentSymbols tf]; split; [done |];
       cbn [runQueries fold_left]; by rewrite A1, A2].
  unfold bind at 1.
  pose proof (after_query_references tf (Number_of_Z (line pos))
                (Number_of_Z (character pos)) w s2) as A3.
  unfold after at 2 in A3.
  exists [QDocumentSymbols sf; QDocumentSymbols tf;
          QReferences tf (Number_of_Z (line pos)) (Number_of_Z (character pos))].
  split; [done |]. cbn [runQueries fold_left]. rewrite A1, A2, A3.
  destruct (getReferences tf _ _ w s2) as [[o3 | e3 |] s3]; cbn [snd]; try done.
  destruct o3 as [refs |]; [| done].
  destruct (sourceRangeOf sourceSym) as [r |]; [| done].
  by destruct (Z.of_nat (length (List.filter _ refs)) >? 0).
Qed.

Lemma orderly_runQueries (w : World) (qs : list Query) :
  forallb toolQuery qs = true ->
  forall s, orderly false s -> orderly false (runQueries w qs s).
Proof.
  induction qs as [| q qs IH]; cbn; [done |].
  intros [Hq Hqs]%andb_prop s Ho. apply IH; [done |].
  apply orderly_runQuery; [by right | done].
Qed.

Lemma orderly_callTool
    (fuel : nat) (toolName : string) (args : JVal) (w : World) (s : State) :
  orderly false s -> orderly false (after (callTool fuel toolName args) w s).
Proof.
  intros Ho.
  destruct (callTool_footprint fuel toolName args w s) as [(qs & Hqs & ->) | (f & ->)].
  - by apply orderly_runQueries.
  - eapply orderly_step; [exact Ho | reflexivity | reflexivity | done | done |].
    by right.
Qed.

Lemma later_callTool
    (fuel : nat) (toolName : string) (args : JVal) (w : World) (s : State) :
  later s (after (callTool fuel toolName args) w s).
Proof.
  destruct (callTool_footprint fuel toolName args w s) as [(qs & Hqs & ->) | (f & ->)].
  - apply later_runQueries.
  - by eapply later_events.
Qed.

Lemma orderly_initialState : orderly false initialState.
Proof. by split. Qed.

Lemma runCalls_app (fuel : nat) (w : World) (c1 c2 : list (string * JVal)) (s : State) :
  runCalls fuel w (c1 ++ c2) s = runCalls fuel w c2 (runCalls fuel w c1 s).
Proof. unfold runCalls. apply fold_left_app. Qed.

Lemma later_runCalls (fuel : nat) (w : World) (calls : list (string * JVal)) (s : State) :
  later s (runCalls fuel w calls s).
Proof.
  revert s. induction calls as [| [n a] calls IH]; intros s; cbn.
  - apply later_refl.
  - eapply later_trans; [apply later_callTool | apply IH].
Qed.

Lemma orderly_runCalls (fuel : nat) (w : World) (calls : list (string * JVal)) :
  forall s, orderly false s -> orderly false (runCalls fuel w calls s).
Proof.
  induction calls as [| [n a] calls IH]; intros s Ho; cbn; [done |].
  apply IH. by apply orderly_callTool.
Qed.

(** X20: along any sequence of tool calls from start-up, whatever the
    tools, the arguments and the answers of the world, a document is
    announced to the server at most once: the open-notifications delivered
    for a URI are one if it is in the open-file set and none if it is not;
    and the set never loses a member. *)
Theorem tool_calls_open_each_document_once
    (fuel : nat) (w : World) (calls : list (string * JVal)) (u : string) :
  let s := runCalls fuel w calls initialState in
  countDidOpen u (history s) =
    (if decide (u ∈ openFiles (client s)) then 1%nat else 0%nat) /\
  (forall more : list (string * JVal),
     openFiles (client s) ⊆
     openFiles (client (runCalls fuel w (calls ++ more) initialState))).
Proof.
  cbn zeta. split.
  - apply (later_inStep _ _ (later_runCalls fuel w calls initialState)),
      inStep_initialState.
  - intros more. rewrite runCalls_app. apply later_open, later_runCalls.
Qed.

(** X21: along any sequence of tool calls from start-up the handshake is
    completed at most once: the initialized notification was delivered once
    if the client is initialized and never if it is not.  Failed handshakes
    are retried, completed ones are not repeated. *)
Theorem tool_calls_complete_handshake_once
    (fuel : nat) (w : World) (calls : list (string * JVal)) :
  let s := runCalls fuel w calls initialState in
  countInitialized (history s) =
    if isInitialized (client s) then 1%nat else 0%nat.
Proof.
  apply (orderly_once false), orderly_runCalls, orderly_initialState.
Qed.

(** X22: along any sequence of tool calls from start-up nothing about a
    document reaches the server before the handshake is complete: every
    request other than initialize and every open-notification, delivered or
    not, comes after the delivered initialized notification. *)
Theorem tool_calls_wait_for_handshake
    (fuel : nat) (w : World) (calls : list (string * JVal))
    (before : list Event) (ev : Event) (rest : list Event) :
  history (runCalls fuel w calls initialState) = (before ++ ev :: rest)%list ->
  isDocumentMessage ev = true ->
  In (EvNotification "initialized" EmptyParams) before.
Proof.
  intros Hh Hev.
  destruct (orderly_runCalls fuel w calls initialState orderly_initialState)
    as [_ Horder Hevents].
  rewrite Hh in Horder, Hevents. rewrite protocolOrder_app in Horder.
  apply andb_prop in Horder as [_ Horder]. cbn [protocolOrder orb] in Horder.
  rewrite forallb_app in Hevents. apply andb_prop in Hevents as [Hbefore _].
  assert (Hnot : isInitializedNotification ev = false).
  { destruct ev as [m p | m p | m p | f | msg err]; try done.
    cbn in *. by destruct (String.eqb m "initialized"). }
  rewrite Hnot, Hev in Horder. apply andb_prop in Horder as [Hseen _].
  apply Nat.ltb_lt in Hseen. unfold countInitialized in Hseen.
  destruct (List.filter isInitializedNotification before) as [| ev0 l] eqn:Hf;
    [cbn in Hseen; lia |].
  assert (Hin : In ev0 (List.filter isInitializedNotification before))
    by (rewrite Hf; by left).
  apply List.filter_In in Hin as [Hin Hinit].
  rewrite forallb_forall in Hbefore. specialize (Hbefore ev0 Hin).
  destruct ev0 as [m p | m p | m p | f | msg err]; try discriminate Hinit.
  cbn in Hinit. apply String.eqb_eq in Hinit as ->.
  destruct p; try discriminate Hbefore. exact Hin.
Qed.

(** X23: along any sequence of tool calls from start-up the bridge sends
    the server nothing but the handshake, open-notifications at version 1,
    and requests for definitions, for references with the declaration
    included, and for outlines; in particular no tool ever asks for a hover,
    and no document is ever closed or changed. *)
Theorem tool_calls_send_known_messages_only
    (fuel : nat) (w : World) (calls : list (string * JVal)) :
  forallb (clientEvent false)
          (history (runCalls fuel w calls initialState)) = true.
Proof.
  apply (orderly_events false), orderly_runCalls, orderly_initialState.
Qed.

End ToolRunsFacts.

Lemma tool_calls_wait_for_handshake_witness :
  In (EvNotification (RT := Posix.runtime) "initialized" EmptyParams)
     [EvConsoleError "Initializing LSP connection..." None;
      EvConsoleError "Sending initialize request..." None;
      EvRequest "initialize" (InitializeParams "file:///proj");
      EvConsoleError "Initialize request successful." None;
      EvNotification "initialized" EmptyParams;
      EvReadFile "/proj/a.ts"].
Proof.
  apply (tool_calls_wait_for_handshake (RT := Posix.runtime) 0
           MoreExamples.oneDefinition [("get_definition", MoreExamples.positionArgs)]
           [EvConsoleError "Initializing LSP connection..." None;
            EvConsoleError "Sending initialize request..." None;
            EvRequest "initialize" (InitializeParams "file:///proj");
            EvConsoleError "Initialize request successful." None;
            EvNotification "initialized" EmptyParams;
            EvReadFile "/proj/a.ts"]
           (EvNotification "textDocument/didOpen"
              (DidOpenParams "file:///proj/a.ts" "typescript" 1
                 ("const a = 1;" ++ nl ++ "aaa")))
           [EvRequest "textDocument/definition"
              (TextDocumentPositionParams "file:///proj/a.ts"
                 (Number_of_Z 0) (Number_of_Z 6))]).
  - reflexivity.
  - reflexivity.
Defined.

Section ExtraArguments.

Context `{RT : JsRuntime}.

Lemma getProp_other (k key : string) (v : JVal) (fields : list (string * JVal)) :
  k <> key -> getProp ((k, v) :: fields) key = getProp fields key.
Proof. intros Hne. cbn. by rewrite (proj2 (String.eqb_neq k key) Hne). Qed.

(** X24: a property the schema of a tool does not ask for is ignored: with
    or without it the call does the same and answers the same. *)
Theorem extra_argument_ignored
    (fuel : nat) (t : Tool) (k : string) (v : JVal) (fields : list (string * JVal))
    (w : World) (s : State) :
  In t listTools ->
  ~ In k (tool_required t) ->
  callTool fuel (tool_name t) (JObj ((k, v) :: fields)) w s =
  callTool fuel (tool_name t) (JObj fields) w s.
Proof.
  intros Ht Hk. cbn in Ht.
  destruct Ht as [<- | [<- | [<- | [<- | []]]]]; cbn [tool_name tool_required] in *;
    unfold callTool; cbn [String.eqb Ascii.eqb Bool.eqb];
    unfold handleGetDefinition, handleGetReferences, handleSearchInFile,
      handleCheckFunctionCall, parse, argsSchema, searchSchema, checkSchema;
    rewrite !getProp_other by (intros ->; apply Hk; cbn; tauto);
    reflexivity.
Qed.

End ExtraArguments.

Lemma extra_argument_ignored_witness :
  callTool (RT := Posix.runtime) 20 "search_in_file"
    (JObj [("limit", JNum (Number_of_Z 3)); ("filePath", JStr "a.ts"); ("query", JStr "aa")])
    MoreExamples.oneDefinition initialState =
  callTool (RT := Posix.runtime) 20 "search_in_file" (MoreExamples.searchArgs "aa")
    MoreExamples.oneDefinition initialState.
Proof.
  apply (extra_argument_ignored (RT := Posix.runtime) 20
           (mkTool "search_in_file"
              "Search for a string in a file to find its line and character position. Useful for finding the arguments for get_definition."
              [ mkToolProperty "filePath" "string" "The absolute path to the file to search in";
                mkToolProperty "query" "string" "The string to search for" ]
              ["filePath"; "query"])
           "limit" (JNum (Number_of_Z 3)) [("filePath", JStr "a.ts"); ("query", JStr "aa")]
           MoreExamples.oneDefinition initialState).
  - cbn. tauto.
  - cbn. intros [H | [H | []]]; discriminate H.
Defined.
